(** * py-scripts: batch office-to-PDF conversion and bucket upload

    A shallow embedding of the two scripts of the repository,

      - [convert_office_to_pdf.py]  (module [ConvertOffice]), and
      - [upload_pdf_to_oci_bucket.py] (module [UploadOci]),

    and the proofs of the properties that the specification states about
    them.

    Both scripts are glue code around library calls ([os], [shutil],
    [win32com], [oci]).  The embedding keeps the scripts' own control flow
    ([for], [try]/[except], [break], [return], [raise]) and their path
    arithmetic, and treats every library call as a call into an arbitrary
    _system_: an abstract state together with one transition function per
    library call, which returns normally or raises.  What a script does is
    then the chronological list of the calls it issued, with their
    arguments and outcomes, and of the lines it printed.  The properties
    are proved for every system; a small simulated file system ([SimFS])
    and a simulated bucket ([SimCloud]) instantiate the interfaces so that
    the scripts can be run on concrete trees.

    What is taken for granted:
      - [print] and [logging] return; only [Exception]s are raised (no
        [KeyboardInterrupt]);
      - paths are normalised lists of components, the same on POSIX and on
        Windows;
      - [os.walk] is lazy, so a run is given the sequence of
        [(root, files)] entries that the generator yields during that run,
        whatever it is: no property assumes that it is a snapshot of the
        tree before the run. *)

From stdpp Require Import base decidable countable list strings gmap.
From Stdlib Require Import Ascii String Lia.

Local Open Scope string_scope.
Local Open Scope list_scope.

(** ** Paths

    The scripts handle paths as strings and only through [os.path].  A
    path is kept here as what those functions see in it: whether it is
    anchored (absolute: it starts at a root or a drive) and its components,
    already normalised (no empty, ["."] or [".."] component). *)

Module Path.

Record path : Type := Mk { anchored : bool; parts : list string }.

#[export] Instance path_eq_dec : EqDecision path.
Proof. solve_decision. Defined.

#[export] Instance path_countable : Countable path.
Proof.
  refine (inj_countable' (fun p => (anchored p, parts p))
                         (fun q => Mk (fst q) (snd q)) _).
  intros []; reflexivity.
Defined.

Definition rel (l : list string) : path := Mk false l.

(** [os.path.join(a, b)]: an anchored [b] discards [a]. *)
Definition join (a b : path) : path :=
  if anchored b then b else Mk (anchored a) (parts a ++ parts b).

(** [os.path.join(a, name)] for a bare file name. *)
Definition join_name (a : path) (name : string) : path :=
  join a (rel [name]).

(** [os.path.dirname(p)]. *)
Definition dirname (p : path) : path :=
  Mk (anchored p) (removelast (parts p)).

(** [os.path.basename(p)]. *)
Definition basename (p : path) : string :=
  List.last (parts p) EmptyString.

(** Longest common prefix of two component lists, returned as what is
    left of each list after it ([os.path.commonprefix] in [relpath]). *)
Fixpoint strip_common (a b : list string) : list string * list string :=
  match a, b with
  | x :: a', y :: b' =>
      if decide (x = y) then strip_common a' b' else (a, b)
  | _, _ => (a, b)
  end.

(** [os.path.relpath(p, start)]:
    [[pardir] * (len(start_list) - i) + path_list[i:]], and [curdir]
    when that list is empty. *)
Definition relpath (p start : path) : path :=
  let '(start_rest, p_rest) := strip_common (parts start) (parts p) in
  let rel_list := replicate (List.length start_rest) ".." ++ p_rest in
  rel (match rel_list with [] => ["."] | _ => rel_list end).

(** *** Extensions *)

Definition is_dot (c : ascii) : bool := Ascii.eqb c ".".

(** [s.rfind(".")] *)
Fixpoint rfind_dot (s : list ascii) : option nat :=
  match s with
  | [] => None
  | c :: t =>
      match rfind_dot t with
      | Some i => Some (S i)
      | None => if is_dot c then Some 0 else None
      end
  end.

(** [os.path.splitext] on a name without separators
    ([genericpath._splitext]): split at the last dot unless only dots
    precede it. *)
Definition splitext_name (s : string) : string * string :=
  let cs := list_ascii_of_string s in
  match rfind_dot cs with
  | Some i =>
      if forallb is_dot (take i cs) then (s, EmptyString)
      else (string_of_list_ascii (take i cs),
            string_of_list_ascii (drop i cs))
  | None => (s, EmptyString)
  end.

Fixpoint map_last (f : string -> string) (l : list string) : list string :=
  match l with
  | [] => []
  | [x] => [f x]
  | x :: t => x :: map_last f t
  end.

(** [os.path.splitext(p)[0]]: only the last component can lose an
    extension, the dot must come after the last separator. *)
Definition splitext_root (p : path) : path :=
  Mk (anchored p) (map_last (fun s => fst (splitext_name s)) (parts p)).

(** [p + suffix] on the path string. *)
Definition add_suffix (p : path) (suffix : string) : path :=
  Mk (anchored p)
     (match parts p with
      | [] => [suffix]
      | l => map_last (fun s => s +:+ suffix) l
      end).

Definition lower_ascii (c : ascii) : ascii :=
  let n := nat_of_ascii c in
  if (65 <=? n)%nat && (n <=? 90)%nat then ascii_of_nat (n + 32) else c.

(** [str.lower()] on the bytes of a name.  On a name made of ASCII
    characters ([ascii_only]) this is Python's function.  A letter
    outside ASCII is left as it is, where Python lower-cases it too; the
    scripts only compare the result with ASCII literals (the six
    extensions and [winword.exe]), and the lower case of a character
    outside ASCII is never made of ASCII characters only, but for the
    Kelvin sign, which gives [k], a letter of none of these literals: the
    comparisons come out the same.  What is stated about [lower] itself
    is stated for ASCII names. *)
Fixpoint lower (s : string) : string :=
  match s with
  | EmptyString => EmptyString
  | String c t => String (lower_ascii c) (lower t)
  end.

(** The names made of ASCII characters. *)
Definition ascii_only (s : string) : bool :=
  forallb (fun c => (nat_of_ascii c <? 128)%nat) (list_ascii_of_string s).

End Path.

Import Path.

(** ** Exceptions, outcomes and the execution monad

    A computation runs from a system state and ends by returning a value or
    by raising; it leaves the state it reached and the events it produced,
    oldest first.  [bind] sequences two computations and stops at the first
    exception, as Python statements do; [try_catch] is
    [try: ... except Exception as e: ...]. *)

Module Exec.

(** The one exception class a script tells apart from the others is
    [oci.exceptions.ServiceError]. *)
Inductive ExnClass : Type := ServiceError | OtherException.

#[export] Instance exn_class_eq_dec : EqDecision ExnClass.
Proof. solve_decision. Defined.

Record Exn : Type := MkExn { exn_class : ExnClass; exn_msg : string }.

Inductive Result (A : Type) : Type :=
| Ok (a : A)
| Raise (e : Exn).

Arguments Ok {A} a.
Arguments Raise {A} e.

Record Out (St Ev A : Type) : Type :=
  MkOut { result : Result A; final : St; events : list Ev }.

Arguments MkOut {St Ev A} result final events.
Arguments result {St Ev A} o.
Arguments final {St Ev A} o.
Arguments events {St Ev A} o.

Definition M (St Ev A : Type) : Type := St -> Out St Ev A.

Definition ret {St Ev A} (a : A) : M St Ev A :=
  fun s => MkOut (Ok a) s [].

Definition raise {St Ev A} (e : Exn) : M St Ev A :=
  fun s => MkOut (Raise e) s [].

Definition bind {St Ev A B} (m : M St Ev A) (k : A -> M St Ev B) : M St Ev B :=
  fun s =>
    match m s with
    | MkOut (Ok a) s1 evs1 =>
        match k a s1 with
        | MkOut r s2 evs2 => MkOut r s2 (evs1 ++ evs2)
        end
    | MkOut (Raise e) s1 evs1 => MkOut (Raise e) s1 evs1
    end.

(** [try: m  except Exception as e: h e] *)
Definition try_catch {St Ev A} (m : M St Ev A) (h : Exn -> M St Ev A) : M St Ev A :=
  fun s =>
    match m s with
    | MkOut (Ok a) s1 evs1 => MkOut (Ok a) s1 evs1
    | MkOut (Raise e) s1 evs1 =>
        match h e s1 with
        | MkOut r s2 evs2 => MkOut r s2 (evs1 ++ evs2)
        end
    end.

(** [try: m  except C as e: h e] for one exception class [C]: any other
    exception passes through. *)
Definition try_catch_class {St Ev A} (c : ExnClass)
    (m : M St Ev A) (h : Exn -> M St Ev A) : M St Ev A :=
  try_catch m (fun e => if decide (exn_class e = c) then h e else raise e).

(** A log line or console line. *)
Definition emit {St Ev} (ev : Ev) : M St Ev unit :=
  fun s => MkOut (Ok tt) s [ev].

(** A call into the system: the system answers and moves to a new state,
    and the call is recorded with its answer. *)
Definition call {St Ev A} (f : St -> Result A * St) (record : Result A -> Ev)
  : M St Ev A :=
  fun s => let '(r, s') := f s in MkOut r s' [record r].

(** A call that only reads the state and cannot raise. *)
Definition query {St Ev A} (f : St -> A) (record : A -> Ev) : M St Ev A :=
  fun s => let a := f s in MkOut (Ok a) s [record a].

(** A property of traces that holds of the empty trace and of the
    concatenation of two traces that have it. *)
Definition compositional {Ev} (P : list Ev -> Prop) : Prop :=
  P [] /\ forall a b, P a -> P b -> P (a ++ b).

(** [for x in l: body x] *)
Fixpoint for_each {St Ev A} (l : list A) (body : A -> M St Ev unit) : M St Ev unit :=
  match l with
  | [] => ret tt
  | x :: t => bind (body x) (fun _ => for_each t body)
  end.

End Exec.

Import Exec.

Declare Scope exec_scope.
Delimit Scope exec_scope with exec.
Notation "x <- m ;; k" := (bind m (fun x => k))
  (at level 100, m at next level, k at level 200, right associativity) : exec_scope.
Notation "m ;; k" := (bind m (fun _ => k))
  (at level 100, k at level 200, right associativity) : exec_scope.

(** ** [convert_office_to_pdf.py] *)

Module ConvertOffice.

(** The three Office applications driven through COM. *)
Inductive App : Type := Word | Excel | PowerPoint.

(** The library calls of the script.  [office_export app src dst] stands
    for one attempt at the whole COM sequence of a handler
    ([Dispatch], [Open], [SaveAs] or [ExportAsFixedFormat], [Close],
    [Quit]): it raises when any of these raises. *)
Record System (St : Type) : Type := MkSystem {
  os_makedirs : path -> St -> Result unit * St;   (* os.makedirs(p, exist_ok=True) *)
  os_path_exists : path -> St -> bool;            (* os.path.exists(p) *)
  shutil_move : path -> path -> St -> Result unit * St;
  shutil_copy : path -> path -> St -> Result unit * St;
  office_export : App -> path -> path -> St -> Result unit * St
}.

Arguments os_makedirs {St} _ _ _.
Arguments os_path_exists {St} _ _ _.
Arguments shutil_move {St} _ _ _ _.
Arguments shutil_copy {St} _ _ _ _.
Arguments office_export {St} _ _ _ _ _.

(** The three printers of the script: [print_info] and [print_success]
    log at level INFO, [print_error] at level ERROR. *)
Inductive Printer : Type := info | error | success.

(** The messages of the script, one constructor per format string. *)
Inductive Msg : Type :=
| MovedToProcessed (rel_path : path)               (* "Moved to Processed: {rel_path}" *)
| ErrorMoving (file_path : path) (e : Exn)         (* "Error moving file {file_path}: {e}" *)
| CopyToOutput (rel_path : path)                   (* "Copy to Output: {rel_path}" *)
| ErrorCopying (file_path : path) (e : Exn)        (* "Error copying file {file_path}: {e}" *)
| Converted (app : App) (rel_path : path) (pdf_name : string)
                                                   (* "Word converted: {rel_path} -> {basename}" *)
| ErrorConverting (app : App) (rel_path : path) (e : Exn)
                                                   (* "Error converting Word file {rel_path}: {e}" *)
| Retrying (n : nat)                               (* "Retrying attempt #{n}/3" *)
| FailedToConvert (rel_path : path) (e : Exn)      (* "Failed to convert Word file {rel_path}: {e}" *)
| SkippingConverted (rel_path : path)              (* "Skipping (already converted): {rel_path}" *)
| SkippingUnsupported (rel_path : path)            (* "Skipping (unsupported file): {rel_path}" *)
| StartProcessing                                  (* "Start processing" *)
| FinishProcessing.                                (* "Finish processing" *)

Inductive Event : Type :=
| Log (p : Printer) (m : Msg)
| Makedirs (dir : path) (r : Result unit)
| Exists (p : path) (b : bool)
| Move (src dst : path) (r : Result unit)
| Copy (src dst : path) (r : Result unit)
| Export (app : App) (src dst : path) (r : Result unit).

(** *** Reading a trace *)

(** The export attempts of a trace, in order. *)
Definition exports (evs : list Event) : list (App * path * path) :=
  omap (fun ev => match ev with
                  | Export app src dst _ => Some (app, src, dst)
                  | _ => None
                  end) evs.

(** The calls of [shutil.move] of a trace, in order. *)
Definition moves (evs : list Event) : list (path * path * Result unit) :=
  omap (fun ev => match ev with
                  | Move src dst r => Some (src, dst, r)
                  | _ => None
                  end) evs.

(** The calls of [shutil.move] on one source file. *)
Definition moves_from (file : path) (evs : list Event)
  : list (path * path * Result unit) :=
  List.filter (fun m => bool_decide (fst (fst m) = file)) (moves evs).

Definition returned (r : Result unit) : bool :=
  match r with Ok _ => true | Raise _ => false end.

(** The two ways a file can end a run: moved into the archive tree by a
    [shutil.move] that returned, or left where it was. *)
Inductive Terminal : Type := Archived | Retained.

Definition terminal_state (file : path) (evs : list Event) : Terminal :=
  if existsb (fun m => returned (snd m)) (moves_from file evs)
  then Archived else Retained.

(** Every [shutil.move] of the trace comes right after an [os.makedirs]
    of the directory of its destination that returned. *)
Definition moves_prepared (evs : list Event) : Prop :=
  forall pre src dst r post,
    evs = pre ++ Move src dst r :: post ->
    exists pre', pre = pre' ++ [Makedirs (dirname dst) (Ok tt)].

(** Every export attempt of the trace comes after an [os.path.exists] of
    its destination that answered [False]. *)
Definition exports_checked (evs : list Event) : Prop :=
  forall pre app src dst r post,
    evs = pre ++ Export app src dst r :: post ->
    In (Exists dst false) pre.

(** *** Replaying a trace

    An event records a call, its arguments and its outcome.  The state in
    which each call of a run was issued is found again by making the calls
    of the trace anew, one after the other, from the state in which the
    run started. *)

Section Replay.

Context {St : Type} (sys : System St).

(** The state that the call recorded by [ev] leaves, made in [s]. *)
Definition step (ev : Event) (s : St) : St :=
  match ev with
  | Log _ _ => s
  | Exists _ _ => s
  | Makedirs dir _ => snd (os_makedirs sys dir s)
  | Move src dst _ => snd (shutil_move sys src dst s)
  | Copy src dst _ => snd (shutil_copy sys src dst s)
  | Export app src dst _ => snd (office_export sys app src dst s)
  end.

(** The outcome recorded in [ev] is the one of the call made in [s]. *)
Definition agrees (ev : Event) (s : St) : Prop :=
  match ev with
  | Log _ _ => True
  | Exists p b => os_path_exists sys p s = b
  | Makedirs dir r => fst (os_makedirs sys dir s) = r
  | Move src dst r => fst (shutil_move sys src dst s) = r
  | Copy src dst r => fst (shutil_copy sys src dst s) = r
  | Export app src dst r => fst (office_export sys app src dst s) = r
  end.

(** The state after the calls of [evs], made from [s]. *)
Fixpoint replay (evs : list Event) (s : St) : St :=
  match evs with
  | [] => s
  | ev :: rest => replay rest (step ev s)
  end.

(** Every outcome recorded in [evs] is the one of the call made in the
    state that the calls before it leave. *)
Fixpoint faithful (evs : list Event) (s : St) : Prop :=
  match evs with
  | [] => True
  | ev :: rest => agrees ev s /\ faithful rest (step ev s)
  end.

End Replay.

Section Script.

Context {St : Type} (sys : System St).

(** The module-level globals set from the command line. *)
Variables output_base_folder processed_base_folder : path.

Local Open Scope exec_scope.

Definition print_info (m : Msg) : M St Event unit := emit (Log info m).
Definition print_error (m : Msg) : M St Event unit := emit (Log error m).
Definition print_success (m : Msg) : M St Event unit := emit (Log success m).

Definition makedirs (dir : path) : M St Event unit :=
  call (os_makedirs sys dir) (Makedirs dir).

Definition path_exists (p : path) : M St Event bool :=
  query (os_path_exists sys p) (Exists p).

Definition move (src dst : path) : M St Event unit :=
  call (shutil_move sys src dst) (Move src dst).

Definition copy (src dst : path) : M St Event unit :=
  call (shutil_copy sys src dst) (Copy src dst).

Definition export (app : App) (src dst : path) : M St Event unit :=
  call (office_export sys app src dst) (Export app src dst).

(** [move_to_processed(file_path, rel_path)] *)
Definition move_to_processed (file_path rel_path : path) : M St Event unit :=
  let processed_path := join processed_base_folder rel_path in
  makedirs (dirname processed_path) ;;
  try_catch
    (move file_path processed_path ;;
     print_info (MovedToProcessed rel_path))
    (fun e => print_error (ErrorMoving file_path e)).

(** [copy_to_output(file_path, rel_path)]: the destination is built from
    [processed_base_folder], as in the source. *)
Definition copy_to_output (file_path rel_path : path) : M St Event unit :=
  let processed_path := join processed_base_folder rel_path in
  makedirs (dirname processed_path) ;;
  try_catch
    (copy file_path processed_path ;;
     print_info (CopyToOutput rel_path))
    (fun e => print_error (ErrorCopying file_path e)).

(** The body of [for attempt in range(3)] in [convert_word_to_pdf]; the
    result says whether the loop was left by [break]. *)
Definition word_attempt (input_path output_path rel_path : path) (attempt : nat)
  : M St Event bool :=
  try_catch
    (export Word input_path output_path ;;
     print_success (Converted Word rel_path (basename output_path)) ;;
     move_to_processed input_path rel_path ;;
     ret true)
    (fun e =>
       print_error (ErrorConverting Word rel_path e) ;;
       print_info (Retrying (attempt + 1)) ;;
       if (3 <? attempt)%nat then
         print_error (FailedToConvert rel_path e) ;;
         raise e
       else ret false).

Fixpoint word_loop (input_path output_path rel_path : path) (attempts : list nat)
  : M St Event unit :=
  match attempts with
  | [] => ret tt
  | attempt :: rest =>
      broke <- word_attempt input_path output_path rel_path attempt ;;
      if broke then ret tt
      else word_loop input_path output_path rel_path rest
  end.

(** [convert_word_to_pdf(input_path, output_path, rel_path)] *)
Definition convert_word_to_pdf (input_path output_path rel_path : path)
  : M St Event unit :=
  word_loop input_path output_path rel_path (seq 0 3).

(** [convert_excel_to_pdf(input_path, output_path, rel_path)] *)
Definition convert_excel_to_pdf (input_path output_path rel_path : path)
  : M St Event unit :=
  try_catch
    (export Excel input_path output_path ;;
     print_success (Converted Excel rel_path (basename output_path)) ;;
     move_to_processed input_path rel_path)
    (fun e => print_error (ErrorConverting Excel rel_path e)).

(** [convert_powerpoint_to_pdf(input_path, output_path, rel_path)] *)
Definition convert_powerpoint_to_pdf (input_path output_path rel_path : path)
  : M St Event unit :=
  try_catch
    (export PowerPoint input_path output_path ;;
     print_success (Converted PowerPoint rel_path (basename output_path)) ;;
     move_to_processed input_path rel_path)
    (fun e => print_error (ErrorConverting PowerPoint rel_path e)).

(** The handler of an application. *)
Definition handler (app : App) : path -> path -> path -> M St Event unit :=
  match app with
  | Word => convert_word_to_pdf
  | Excel => convert_excel_to_pdf
  | PowerPoint => convert_powerpoint_to_pdf
  end.

(** The [if]/[elif] chain on [file_ext]: the application whose handler
    takes the file, if any. *)
Definition classify (file_ext : string) : option App :=
  if bool_decide (file_ext ∈ [".doc"; ".docx"]) then Some Word
  else if bool_decide (file_ext ∈ [".xls"; ".xlsx"]) then Some Excel
  else if bool_decide (file_ext ∈ [".ppt"; ".pptx"]) then Some PowerPoint
  else None.

(** A source on which every export attempt of an application raises,
    whatever the state of the system. *)
Definition persistently_failing (app : App) (input_path output_path : path) : Prop :=
  forall s, exists e s', office_export sys app input_path output_path s = (Raise e, s').

Variable input_folder : path.

(** What [os.walk(input_folder)] yields is a sequence of
    [(root, dirs, files)] with [root] the join of [input_folder] and the
    names of the directories on the way down.  An entry is kept as these
    names and the file names; the script ignores [dirs]. *)
Definition walk_entry : Type := list string * list string.

(** The files of a walk, in the order in which the loops reach them. *)
Definition discovered (walk : list walk_entry) : list (list string * string) :=
  flat_map (fun '(d, files) => map (fun filename => (d, filename)) files) walk.

Definition file_path_of (d : list string) (filename : string) : path :=
  join_name (join input_folder (rel d)) filename.

Definition rel_path_of (d : list string) (filename : string) : path :=
  relpath (file_path_of d filename) input_folder.

Definition output_pdf_path_of (d : list string) (filename : string) : path :=
  join output_base_folder
       (add_suffix (splitext_root (rel_path_of d filename)) ".pdf").

Definition file_ext_of (filename : string) : string :=
  lower (snd (splitext_name filename)).

(** The body of the inner loop of [convert_office_files_recursively]. *)
Definition process_file (d : list string) (filename : string) : M St Event unit :=
  let file_path := file_path_of d filename in
  let rel_path := rel_path_of d filename in
  let output_pdf_path := output_pdf_path_of d filename in
  makedirs (dirname output_pdf_path) ;;
  already <- path_exists output_pdf_path ;;
  if already then
    print_info (SkippingConverted rel_path) ;;
    move_to_processed file_path rel_path
  else
    match classify (file_ext_of filename) with
    | Some app => handler app file_path output_pdf_path rel_path
    | None =>
        print_info (SkippingUnsupported rel_path) ;;
        copy_to_output file_path output_pdf_path ;;
        move_to_processed file_path rel_path
    end.

(** The four calls of [os.makedirs] that no [try] encloses, as the end of
    the trace [evs] of a file when the call raised [e]: the call of the
    traversal itself (line 108), the one of [move_to_processed] for a file
    skipped as already converted (line 36, from line 113), the one of
    [copy_to_output] (line 46, from line 125), and the one of
    [move_to_processed] for an unsupported file (line 36, from
    line 126). *)
Definition escapes_from_makedirs (d : list string) (filename : string)
    (e : Exn) (evs : list Event) : Prop :=
  let file_path := file_path_of d filename in
  let rel_path := rel (d ++ [filename]) in
  let pdf := output_pdf_path_of d filename in
  exists pre,
    evs = pre ++ [Makedirs (dirname pdf) (Raise e)]
    \/ evs = pre ++ [Exists pdf true;
                     Log info (SkippingConverted rel_path);
                     Makedirs (dirname (join processed_base_folder rel_path))
                              (Raise e)]
    \/ (classify (file_ext_of filename) = None
        /\ evs = pre ++ [Exists pdf false;
                         Log info (SkippingUnsupported rel_path);
                         Makedirs (dirname (join processed_base_folder pdf))
                                  (Raise e)])
    \/ (classify (file_ext_of filename) = None
        /\ exists r,
             evs = pre ++ [Copy file_path (join processed_base_folder pdf) r;
                           match r with
                           | Ok _ => Log info (CopyToOutput pdf)
                           | Raise e' => Log error (ErrorCopying file_path e')
                           end;
                           Makedirs (dirname (join processed_base_folder rel_path))
                                    (Raise e)]).

(** [convert_office_files_recursively(input_folder)], on the entries that
    the walk yields. *)
Definition convert_office_files_recursively (walk : list walk_entry)
  : M St Event unit :=
  for_each walk (fun '(d, files) =>
    for_each files (fun filename => process_file d filename)).

(** The script body after argument parsing. *)
Definition main (log_folder : path) (walk : list walk_entry) : M St Event unit :=
  makedirs output_base_folder ;;
  makedirs processed_base_folder ;;
  makedirs log_folder ;;
  print_info StartProcessing ;;
  convert_office_files_recursively walk ;;
  print_success FinishProcessing.

End Script.

End ConvertOffice.

(** ** [upload_pdf_to_oci_bucket.py] *)

Module UploadOci.

(** The authentication dictionary built from the command line. *)
Record Config : Type := MkConfig {
  user : string; tenancy : string; region : string;
  fingerprint : string; key_file : string
}.

(** An open file object. *)
Definition File : Type := nat.

Record System (St : Type) : Type := MkSystem {
  client_init : Config -> St -> Result unit * St;
      (* oci.object_storage.ObjectStorageClient(config) *)
  get_bucket : string -> string -> St -> Result unit * St;
      (* client.get_bucket(namespace, bucket_name) *)
  open_rb : path -> St -> Result File * St;
      (* open(file_path, "rb") *)
  put_object : string -> string -> path -> File -> St -> Result unit * St;
      (* client.put_object(namespace_name, bucket_name, object_name, put_object_body) *)
  close : File -> St -> St
      (* leaving the [with] block *)
}.

Arguments client_init {St} _ _ _.
Arguments get_bucket {St} _ _ _ _.
Arguments open_rb {St} _ _ _.
Arguments put_object {St} _ _ _ _ _ _.
Arguments close {St} _ _ _.

Inductive Msg : Type :=
| BucketMissing (bucket_name : string) (e : Exn)
    (* "Bucket '{bucket_name}' does not exist or is not accessible: {e}" *)
| Uploading (file_path : path) (bucket_name : string) (object_name : path).
    (* "Uploading: {file_path} → {bucket_name}/{object_name}" *)

Inductive Event : Type :=
| Printed (m : Msg)
| ClientInit (config : Config) (r : Result unit)
| GetBucket (namespace bucket_name : string) (r : Result unit)
| Open (file_path : path) (r : Result File)
| PutObject (namespace bucket_name : string) (object_name : path)
            (body : File) (r : Result unit)
| Close (f : File).

(** The object names passed to [put_object], in order. *)
Definition put_keys (evs : list Event) : list path :=
  omap (fun ev => match ev with
                  | PutObject _ _ object_name _ _ => Some object_name
                  | _ => None
                  end) evs.

(** The events of the upload of a file: opening it, sending it, closing
    it. *)
Definition is_upload_step (ev : Event) : bool :=
  match ev with
  | Open _ _ | PutObject _ _ _ _ _ | Close _ => true
  | _ => false
  end.

Section Script.

Context {St : Type} (sys : System St).

Local Open Scope exec_scope.

Definition print (m : Msg) : M St Event unit := emit (Printed m).

(** [with open(file_path, "rb") as file: body file]: the file is closed
    when the block is left, by its end or by an exception. *)
Definition with_open (file_path : path) (body : File -> M St Event unit)
  : M St Event unit :=
  file <- call (open_rb sys file_path) (Open file_path) ;;
  let close_file : M St Event unit :=
    fun s => MkOut (Ok tt) (close sys file s) [Close file] in
  try_catch (body file ;; close_file) (fun e => close_file ;; raise e).

Definition walk_entry : Type := list string * list string.

(** The files of a walk, in the order in which the loops reach them. *)
Definition discovered (walk : list walk_entry) : list (list string * string) :=
  flat_map (fun '(d, files) => map (fun file_name => (d, file_name)) files) walk.

(** The body of the inner loop of [upload_to_oci]. *)
Definition upload_file (bucket_name namespace : string) (folder_path : path)
    (d : list string) (file_name : string) : M St Event unit :=
  let file_path := join_name (join folder_path (rel d)) file_name in
  let object_name := relpath file_path folder_path in
  print (Uploading file_path bucket_name object_name) ;;
  with_open file_path (fun file =>
    call (put_object sys namespace bucket_name object_name file)
         (PutObject namespace bucket_name object_name file)).

(** [upload_to_oci(bucket_name, namespace, folder_path, config)], on the
    entries that [os.walk(folder_path)] yields. *)
Definition upload_to_oci (bucket_name namespace : string) (folder_path : path)
    (config : Config) (walk : list walk_entry) : M St Event unit :=
  call (client_init sys config) (ClientInit config) ;;
  bucket_ok <-
    try_catch_class ServiceError
      (call (get_bucket sys namespace bucket_name)
            (GetBucket namespace bucket_name) ;;
       ret true)
      (fun e => print (BucketMissing bucket_name e) ;; ret false) ;;
  if bucket_ok then
    for_each walk (fun '(d, files) =>
      for_each files (fun file_name =>
        upload_file bucket_name namespace folder_path d file_name))
  else ret tt.

End Script.

End UploadOci.

(** ** A simulated file system

    An instance of [ConvertOffice.System] on which the script can be run:
    regular files with their contents, directories, and Office
    applications that turn a document into a PDF unless the document is in
    the set [corrupt] (every attempt fails) or still has failures left in
    [flaky] (the next attempts fail, one per unit).  The file operations
    fail for structural reasons only (a missing source, a missing parent
    directory, a file where a directory is needed), as [os] and [shutil]
    do. *)

Module SimFS.

Record FS : Type := MkFS {
  files : gmap path string;
  dirs : gset path;
  flaky : gmap path nat
}.

Definition is_file (fs : FS) (p : path) : bool :=
  match files fs !! p with Some _ => true | None => false end.

(** The working directory and the root always exist. *)
Definition is_dir (fs : FS) (p : path) : bool :=
  bool_decide (parts p = []) || bool_decide (p ∈ dirs fs).

Definition sim_exists (p : path) (fs : FS) : bool :=
  is_file fs p || is_dir fs p.

(** [p] and the directories above it, outermost first. *)
Definition ancestors (p : path) : list path :=
  map (fun n => Mk (anchored p) (take n (parts p)))
      (seq 1 (List.length (parts p))).

Definition oserror (msg : string) : Exn := MkExn OtherException msg.

(** [os.makedirs(p, exist_ok=True)] *)
Definition sim_makedirs (p : path) (fs : FS) : Result unit * FS :=
  if existsb (is_file fs) (ancestors p)
  then (Raise (oserror "FileExistsError"), fs)
  else (Ok tt, MkFS (files fs) (dirs fs ∪ list_to_set (ancestors p)) (flaky fs)).

(** [shutil.move(src, dst)] for a regular file [src]: into [dst] when it is
    a directory, onto [dst] otherwise. *)
Definition sim_move (src dst : path) (fs : FS) : Result unit * FS :=
  let real_dst := if is_dir fs dst then join_name dst (basename src) else dst in
  match files fs !! src with
  | None => (Raise (oserror "FileNotFoundError"), fs)
  | Some content =>
      if is_dir fs dst && sim_exists real_dst fs
      then (Raise (oserror "Destination path already exists"), fs)
      else if negb (is_dir fs (dirname real_dst))
      then (Raise (oserror "FileNotFoundError"), fs)
      else (Ok tt, MkFS (<[real_dst := content]> (delete src (files fs)))
                        (dirs fs) (flaky fs))
  end.

(** [shutil.copy(src, dst)] *)
Definition sim_copy (src dst : path) (fs : FS) : Result unit * FS :=
  let real_dst := if is_dir fs dst then join_name dst (basename src) else dst in
  match files fs !! src with
  | None => (Raise (oserror "FileNotFoundError"), fs)
  | Some content =>
      if bool_decide (src = real_dst)
      then (Raise (oserror "SameFileError"), fs)
      else if is_dir fs real_dst
      then (Raise (oserror "IsADirectoryError"), fs)
      else if negb (is_dir fs (dirname real_dst))
      then (Raise (oserror "FileNotFoundError"), fs)
      else (Ok tt, MkFS (<[real_dst := content]> (files fs)) (dirs fs) (flaky fs))
  end.

(** One attempt of an Office application at exporting [src] to [dst]. *)
Definition sim_export (corrupt : gset path)
    (app : ConvertOffice.App) (src dst : path) (fs : FS) : Result unit * FS :=
  if bool_decide (src ∈ corrupt)
  then (Raise (oserror "com_error: the file is corrupt"), fs)
  else
    match flaky fs !! src with
    | Some (S n) =>
        (Raise (oserror "com_error: the application is busy"),
         MkFS (files fs) (dirs fs) (<[src := n]> (flaky fs)))
    | _ =>
        match files fs !! src with
        | None => (Raise (oserror "com_error: file not found"), fs)
        | Some content =>
            if negb (is_dir fs (dirname dst))
            then (Raise (oserror "com_error: cannot save"), fs)
            else (Ok tt, MkFS (<[dst := "PDF of " +:+ content]> (files fs))
                              (dirs fs) (flaky fs))
        end
    end.

Definition system (corrupt : gset path) : ConvertOffice.System FS :=
  ConvertOffice.MkSystem FS sim_makedirs sim_exists sim_move sim_copy
                         (sim_export corrupt).

(** A file system from a list of files; the directories above each file
    are created. *)
Definition mkfs (l : list (path * string)) : FS :=
  MkFS (list_to_map l)
       (list_to_set (List.concat (map (fun pc => ancestors (dirname (fst pc))) l)))
       ∅.

End SimFS.

(** ** A simulated bucket

    An instance of [UploadOci.System]: local files, at most one bucket that
    exists, the objects stored in it, and a set of object names that the
    service rejects. *)

Module SimCloud.

Record Cloud : Type := MkCloud {
  local : gmap path string;
  bucket : option (string * string);        (* namespace, bucket name *)
  objects : gmap path string;
  opened : list path                        (* file objects, by number *)
}.

Definition sim_client_init (config : UploadOci.Config) (c : Cloud)
  : Result unit * Cloud := (Ok tt, c).

Definition sim_get_bucket (namespace bucket_name : string) (c : Cloud)
  : Result unit * Cloud :=
  if bool_decide (bucket c = Some (namespace, bucket_name))
  then (Ok tt, c)
  else (Raise (MkExn ServiceError "BucketNotFound"), c).

Definition sim_open_rb (p : path) (c : Cloud) : Result UploadOci.File * Cloud :=
  match local c !! p with
  | Some _ =>
      (Ok (List.length (opened c)),
       MkCloud (local c) (bucket c) (objects c) (opened c ++ [p]))
  | None => (Raise (MkExn OtherException "FileNotFoundError"), c)
  end.

Definition sim_put_object (rejected : gset path)
    (namespace bucket_name : string) (object_name : path)
    (body : UploadOci.File) (c : Cloud) : Result unit * Cloud :=
  if bool_decide (object_name ∈ rejected)
  then (Raise (MkExn ServiceError "TooManyRequests"), c)
  else
    match opened c !! body with
    | Some p =>
        match local c !! p with
        | Some content =>
            (Ok tt, MkCloud (local c) (bucket c)
                            (<[object_name := content]> (objects c)) (opened c))
        | None => (Raise (MkExn OtherException "ValueError"), c)
        end
    | None => (Raise (MkExn OtherException "ValueError"), c)
    end.

Definition sim_close (f : UploadOci.File) (c : Cloud) : Cloud := c.

Definition system (rejected : gset path) : UploadOci.System Cloud :=
  UploadOci.MkSystem Cloud sim_client_init sim_get_bucket sim_open_rb
                     (sim_put_object rejected) sim_close.

End SimCloud.

(** ** Concrete runs

    The tree of the specification's scenario, [a/report.docx],
    [a/b/data.xlsx] and [readme.txt] under the input root, with relative
    roots for the three trees, and a folder of two PDFs to upload. *)

Module Scenario.

Definition input_folder : path := rel ["in"].
Definition output_base_folder : path := rel ["output"].
Definition processed_base_folder : path := rel ["archive"].

Definition report : path := rel ["in"; "a"; "report.docx"].
Definition data : path := rel ["in"; "a"; "b"; "data.xlsx"].
Definition readme : path := rel ["in"; "readme.txt"].

Definition tree : SimFS.FS :=
  SimFS.mkfs [(report, "report"); (data, "data"); (readme, "readme")].

(** The same tree after an interrupted run that had already written
    [output/a/report.pdf]. *)
Definition tree_after_partial_run : SimFS.FS :=
  SimFS.mkfs [(report, "report"); (data, "data"); (readme, "readme");
              (rel ["output"; "a"; "report.pdf"], "PDF of report")].

(** The tree after the interrupted run, with an archive that already
    holds a directory named [a/report.docx]. *)
Definition partial_run_with_directory_at_report : SimFS.FS :=
  SimFS.mkfs [(report, "report");
              (rel ["output"; "a"; "report.pdf"], "PDF of report");
              (rel ["archive"; "a"; "report.docx"; "old.txt"], "old")].

(** A tree with [readme.txt] and an archive that already holds a
    directory named [readme.txt]. *)
Definition tree_with_directory_at_readme : SimFS.FS :=
  SimFS.mkfs [(readme, "readme");
              (rel ["archive"; "readme.txt"; "old.txt"], "old")].

Definition walk : list (list string * list string) :=
  [([], ["readme.txt"]); (["a"], ["report.docx"]); (["a"; "b"], ["data.xlsx"])].

(** Office applications that convert everything, and ones that fail on
    [a/report.docx] at every attempt. *)
Definition healthy : ConvertOffice.System SimFS.FS := SimFS.system ∅.
Definition report_corrupt : ConvertOffice.System SimFS.FS := SimFS.system {[report]}.

Definition run (sys : ConvertOffice.System SimFS.FS)
    (walk : list (list string * list string)) (fs : SimFS.FS)
  : Out SimFS.FS ConvertOffice.Event unit :=
  ConvertOffice.convert_office_files_recursively
    sys output_base_folder processed_base_folder input_folder walk fs.

Definition process (sys : ConvertOffice.System SimFS.FS)
    (d : list string) (filename : string) (fs : SimFS.FS)
  : Out SimFS.FS ConvertOffice.Event unit :=
  ConvertOffice.process_file
    sys output_base_folder processed_base_folder input_folder d filename fs.

(** The state after [os.makedirs] of a directory. *)
Definition after_makedirs (dir : path) (fs : SimFS.FS) : SimFS.FS :=
  snd (SimFS.sim_makedirs dir fs).

Definition folder_path : path := rel ["pdfs"].

Definition config : UploadOci.Config :=
  UploadOci.MkConfig "user" "tenancy" "region" "fingerprint" "key.pem".

Definition cloud : SimCloud.Cloud :=
  SimCloud.MkCloud
    (list_to_map [(rel ["pdfs"; "a.pdf"], "A"); (rel ["pdfs"; "sub"; "b.pdf"], "B")])
    (Some ("ns", "bucket")) ∅ [].

Definition cloud_without_bucket : SimCloud.Cloud :=
  SimCloud.MkCloud (SimCloud.local cloud) None ∅ [].

Definition upload_walk : list (list string * list string) :=
  [([], ["a.pdf"]); (["sub"], ["b.pdf"])].

(** A service that accepts every object, and one that rejects [a.pdf]. *)
Definition accepting : UploadOci.System SimCloud.Cloud := SimCloud.system ∅.
Definition rejecting_a : UploadOci.System SimCloud.Cloud :=
  SimCloud.system {[rel ["a.pdf"]]}.

Definition upload (sys : UploadOci.System SimCloud.Cloud) (c : SimCloud.Cloud)
  : Out SimCloud.Cloud UploadOci.Event unit :=
  UploadOci.upload_to_oci sys "bucket" "ns" folder_path config upload_walk c.

End Scenario.

(** ** [force_quit_word]

    The helper of [convert_office_to_pdf.py] that ends the running Word
    processes.  [psutil.process_iter(['pid', 'name'])] yields the
    processes with their [info]; a name that [psutil] could not read is
    [None]. *)

Module ForceQuit.

Record Process : Type := MkProcess { pid : nat; name : option string }.

Record System (St : Type) : Type := MkSystem {
  process_iter : St -> list Process;               (* psutil.process_iter([...]) *)
  terminate : Process -> St -> Result unit * St    (* process.terminate() *)
}.

Arguments process_iter {St} _ _.
Arguments terminate {St} _ _ _.

Inductive Event : Type :=
| Iterated (processes : list Process)
| Terminated (process : Process) (r : Result unit)
| TerminateWordLogged.                             (* print_info("Terminate Word") *)

(** [None.lower()] *)
Definition attribute_error : Exn :=
  MkExn OtherException "'NoneType' object has no attribute 'lower'".

(** [process.info['name'].lower() == 'winword.exe'], for a name that is
    there. *)
Definition is_word (process_name : string) : bool :=
  bool_decide (lower process_name = "winword.exe").

Section Script.

Context {St : Type} (sys : System St).

Local Open Scope exec_scope.

(** The body of the loop of [force_quit_word]. *)
Definition quit_if_word (process : Process) : M St Event unit :=
  match name process with
  | None => raise attribute_error
  | Some process_name =>
      if is_word process_name then
        call (terminate sys process) (Terminated process) ;;
        emit TerminateWordLogged
      else ret tt
  end.

(** [force_quit_word()] *)
Definition force_quit_word : M St Event unit :=
  processes <- query (process_iter sys) Iterated ;;
  for_each processes quit_if_word.

End Script.

(** The processes on which [terminate] was called, in order. *)
Definition terminated (evs : list Event) : list Process :=
  omap (fun ev => match ev with
                  | Terminated process _ => Some process
                  | _ => None
                  end) evs.

(** The Word processes of a list: those with a name that is
    [winword.exe] up to case. *)
Definition word_processes (processes : list Process) : list Process :=
  List.filter (fun process => match name process with
                              | Some process_name => is_word process_name
                              | None => false
                              end) processes.

End ForceQuit.

(** ** Reading the trace of an upload *)

Module UploadFiles.

(** The file objects that [open] returned, in order. *)
Definition opened (evs : list UploadOci.Event) : list UploadOci.File :=
  omap (fun ev => match ev with
                  | UploadOci.Open _ (Ok file) => Some file
                  | _ => None
                  end) evs.

(** The file objects that were closed, in order. *)
Definition closed (evs : list UploadOci.Event) : list UploadOci.File :=
  omap (fun ev => match ev with
                  | UploadOci.Close file => Some file
                  | _ => None
                  end) evs.

End UploadFiles.

(** ** The command line of [upload_pdf_to_oci_bucket.py]

    The [__main__] block: the configuration is built from the arguments, a
    client is made to fetch the namespace, and [upload_to_oci] is called
    with it. *)

Module UploadMain.

Record Args : Type := MkArgs {
  bucket_name : string; folder_path : path;
  user : string; tenancy : string; region : string;
  fingerprint : string; private_key : string
}.

Record System (St : Type) : Type := MkSystem {
  storage : UploadOci.System St;
  get_namespace : St -> Result string * St      (* client.get_namespace().data *)
}.

Arguments storage {St} _.
Arguments get_namespace {St} _ _.

Inductive Event : Type :=
| Upload (ev : UploadOci.Event)
| GetNamespace (r : Result string).

(** The [config] dictionary. *)
Definition config_of (args : Args) : UploadOci.Config :=
  UploadOci.MkConfig (user args) (tenancy args) (region args)
                     (fingerprint args) (private_key args).

Section Script.

Context {St : Type} (sys : System St).

Local Open Scope exec_scope.

(** A computation of [upload_to_oci]'s kind inside the block. *)
Definition lift {A} (m : M St UploadOci.Event A) : M St Event A :=
  fun s =>
    match m s with
    | MkOut r s' evs => MkOut r s' (map Upload evs)
    end.

Definition main (args : Args) (walk : list UploadOci.walk_entry) : M St Event unit :=
  let config := config_of args in
  lift (call (UploadOci.client_init (storage sys) config)
             (UploadOci.ClientInit config)) ;;
  namespace <- call (get_namespace sys) GetNamespace ;;
  lift (UploadOci.upload_to_oci (storage sys) (bucket_name args) namespace
                                (folder_path args) config walk).

End Script.

End UploadMain.

(** ** More concrete runs *)

Module MoreScenarios.

Import Scenario.

(** A directory with a document and a spreadsheet of the same stem. *)
Definition twins : SimFS.FS :=
  SimFS.mkfs [(rel ["in"; "q"; "report.docx"], "report");
              (rel ["in"; "q"; "report.xlsx"], "figures")].

Definition twins_walk : list (list string * list string) :=
  [(["q"], ["report.docx"; "report.xlsx"])].

(** The tree of the scenario with a regular file where the output
    directory [output/a] should be. *)
Definition tree_with_blocked_output : SimFS.FS :=
  SimFS.mkfs [(report, "report"); (data, "data"); (readme, "readme");
              (rel ["output"; "a"], "not a directory")].

(** The tree of the scenario with a regular file where the archive
    directory [archive/a] should be. *)
Definition tree_with_blocked_archive : SimFS.FS :=
  SimFS.mkfs [(report, "report"); (data, "data"); (readme, "readme");
              (rel ["archive"; "a"], "not a directory")].

(** The tree after the interrupted run, with a regular file where the
    archive directory [archive/a] should be. *)
Definition partial_run_with_blocked_archive : SimFS.FS :=
  SimFS.mkfs [(report, "report");
              (rel ["output"; "a"; "report.pdf"], "PDF of report");
              (rel ["archive"; "a"], "not a directory")].

(** A tree in which the place of the copy of [readme.txt] is taken by
    directories: [archive/output/readme.pdf/readme.txt] is one. *)
Definition tree_with_blocked_copy : SimFS.FS :=
  SimFS.mkfs [(readme, "readme");
              (rel ["archive"; "output"; "readme.pdf"; "readme.txt"; "x"], "x")].

(** Applications that convert everything on a volume where no directory
    can be made. *)
Definition read_only_volume : ConvertOffice.System unit :=
  ConvertOffice.MkSystem unit
    (fun _ s => (Raise (SimFS.oserror "PermissionError"), s))
    (fun _ _ => false)
    (fun _ _ s => (Ok tt, s))
    (fun _ _ s => (Ok tt, s))
    (fun _ _ _ s => (Ok tt, s)).

(** A walk over directories that hold no file. *)
Definition walk_of_empty_directories : list (list string * list string) :=
  [([], []); (["a"], []); (["a"; "b"], [])].

Definition processes : list ForceQuit.Process :=
  [ForceQuit.MkProcess 4 (Some "System");
   ForceQuit.MkProcess 812 (Some "WINWORD.EXE");
   ForceQuit.MkProcess 977 (Some "excel.exe");
   ForceQuit.MkProcess 1203 (Some "winword.exe")].

Definition processes_with_unnamed : list ForceQuit.Process :=
  [ForceQuit.MkProcess 812 (Some "WINWORD.EXE");
   ForceQuit.MkProcess 0 None;
   ForceQuit.MkProcess 1203 (Some "winword.exe")].

(** A process table: the processes still running; [terminate] removes
    one. *)
Definition process_table : ForceQuit.System (list ForceQuit.Process) :=
  ForceQuit.MkSystem (list ForceQuit.Process)
    (fun table => table)
    (fun process table =>
       (Ok tt, List.filter (fun p => negb (Nat.eqb (ForceQuit.pid p)
                                                  (ForceQuit.pid process)))
                           table)).

Definition args : UploadMain.Args :=
  UploadMain.MkArgs "bucket" folder_path "user" "tenancy" "region"
                    "fingerprint" "key.pem".

(** The simulated service with a namespace. *)
Definition service : UploadMain.System SimCloud.Cloud :=
  UploadMain.MkSystem SimCloud.Cloud accepting (fun c => (Ok "ns", c)).

(** A cloud in which [a.pdf] has vanished from the folder between the walk
    and the upload. *)
Definition cloud_without_a : SimCloud.Cloud :=
  SimCloud.MkCloud (list_to_map [(rel ["pdfs"; "sub"; "b.pdf"], "B")])
                   (Some ("ns", "bucket")) ∅ [].

End MoreScenarios.

(** * Properties *)

(** ** Path arithmetic *)

Module PathFacts.

Lemma strip_common_prefix (a b : list string) :
  strip_common a (a ++ b) = ([], b).
Proof.
  induction a as [|x a IH]; simpl.
  - destruct b; reflexivity.
  - rewrite decide_True by reflexivity. exact IH.
Qed.

(** A file that the walk finds [d] directories below [start] has the
    relative path [d/name], whatever the depth. *)
Lemma relpath_below (start : path) (d : list string) (name : string) :
  relpath (join_name (join start (rel d)) name) start = rel (d ++ [name]).
Proof.
  unfold relpath, join_name, join; simpl.
  rewrite <- app_assoc, strip_common_prefix; simpl.
  destruct (d ++ [name]) eqn:E; [|reflexivity].
  destruct d; discriminate.
Qed.

Lemma dirname_join_below (base : path) (d : list string) (name : string) :
  dirname (join base (rel (d ++ [name]))) = join base (rel d).
Proof.
  unfold dirname, join; simpl.
  rewrite app_assoc, removelast_last. reflexivity.
Qed.

Lemma join_below_inj (base : path) (d d' : list string) (name name' : string) :
  join_name (join base (rel d)) name = join_name (join base (rel d')) name' ->
  d = d' /\ name = name'.
Proof.
  unfold join_name, join; simpl. intros H.
  injection H as H.
  rewrite <- !app_assoc in H. apply app_inv_head in H.
  apply app_inj_tail in H. exact H.
Qed.

End PathFacts.

(** ** The execution monad *)

Module ExecFacts.

Section Traces.

Context {St Ev : Type}.

Lemma compositional_Forall (Q : Ev -> Prop) : compositional (Forall Q).
Proof.
  split; [constructor|]. intros a b Ha Hb. apply Forall_app; auto.
Qed.

Lemma events_bind {A B} (P : list Ev -> Prop)
    (m : M St Ev A) (k : A -> M St Ev B) (s : St) :
  compositional P ->
  P (events (m s)) ->
  (forall a s', P (events (k a s'))) ->
  P (events (bind m k s)).
Proof.
  intros [_ Happ] Hm Hk. unfold bind.
  destruct (m s) as [[a|e] s1 evs1]; simpl in *; [|exact Hm].
  specialize (Hk a s1). destruct (k a s1); simpl in *. auto.
Qed.

Lemma events_try_catch {A} (P : list Ev -> Prop)
    (m : M St Ev A) (h : Exn -> M St Ev A) (s : St) :
  compositional P ->
  P (events (m s)) ->
  (forall e s', P (events (h e s'))) ->
  P (events (try_catch m h s)).
Proof.
  intros [_ Happ] Hm Hh. unfold try_catch.
  destruct (m s) as [[a|e] s1 evs1]; simpl in *; [exact Hm|].
  specialize (Hh e s1). destruct (h e s1); simpl in *. auto.
Qed.

Lemma bind_assoc {A B C} (m : M St Ev A) (k1 : A -> M St Ev B)
    (k2 : B -> M St Ev C) (s : St) :
  bind (bind m k1) k2 s = bind m (fun a => bind (k1 a) k2) s.
Proof.
  unfold bind. destruct (m s) as [[a|e] s1 evs1]; [|reflexivity].
  destruct (k1 a s1) as [[b|e] s2 evs2]; [|reflexivity].
  destruct (k2 b s2). rewrite app_assoc. reflexivity.
Qed.

(** After a first computation that returns, the second one runs from the
    state that the first one left. *)
Lemma bind_ok {A B} (m : M St Ev A) (k : A -> M St Ev B) (s : St) (a : A) :
  result (m s) = Ok a ->
  result (bind m k s) = result (k a (final (m s)))
  /\ final (bind m k s) = final (k a (final (m s)))
  /\ events (bind m k s) = events (m s) ++ events (k a (final (m s))).
Proof.
  intros H. unfold bind.
  destruct (m s) as [r s1 evs1]; simpl in *; subst r.
  destruct (k a s1); simpl. auto.
Qed.

Lemma events_for_each {A} (P : list Ev -> Prop)
    (l : list A) (body : A -> M St Ev unit) (s : St) :
  compositional P ->
  (forall x s', In x l -> P (events (body x s'))) ->
  P (events (for_each l body s)).
Proof.
  intros HP. revert s. induction l as [|x l IH]; intros s Hbody.
  - apply HP.
  - simpl. apply events_bind; auto.
    + apply Hbody. left; reflexivity.
    + intros _ s'. apply IH. intros y s'' Hy. apply Hbody. right; exact Hy.
Qed.

(** The loop goes on after an iteration that returns. *)
Lemma for_each_cons_ok {A} (x : A) (l : list A) (body : A -> M St Ev unit) (s : St) :
  result (body x s) = Ok tt ->
  let o := body x s in
  let rest := for_each l body (final o) in
  result (for_each (x :: l) body s) = result rest
  /\ final (for_each (x :: l) body s) = final rest
  /\ events (for_each (x :: l) body s) = events o ++ events rest.
Proof.
  intros H. simpl. unfold bind.
  destruct (body x s) as [r s1 evs1]; simpl in *; subst r.
  destruct (for_each l body s1); simpl. auto.
Qed.

(** The loop stops at an iteration that raises. *)
Lemma for_each_cons_raise {A} (x : A) (l : list A) (body : A -> M St Ev unit)
    (s : St) (e : Exn) :
  result (body x s) = Raise e ->
  for_each (x :: l) body s = MkOut (Raise e) (final (body x s)) (events (body x s)).
Proof.
  intros H. simpl. unfold bind.
  destruct (body x s) as [r s1 evs1]; simpl in *; subst r. reflexivity.
Qed.

(** The trace of a loop: the trace of the first iteration, then that of
    the rest of the loop if the first iteration returned. *)
Lemma for_each_cons_events {A} (x : A) (l : list A)
    (body : A -> M St Ev unit) (s : St) :
  events (for_each (x :: l) body s)
  = events (body x s)
    ++ match result (body x s) with
       | Ok _ => events (for_each l body (final (body x s)))
       | Raise _ => []
       end.
Proof.
  simpl. unfold bind.
  destruct (body x s) as [[[]|e] s1 evs1]; simpl.
  - destruct (for_each l body s1); reflexivity.
  - rewrite app_nil_r. reflexivity.
Qed.

Lemma for_each_app {A} (l1 l2 : list A) (body : A -> M St Ev unit) (s : St) :
  for_each (l1 ++ l2) body s
  = bind (for_each l1 body) (fun _ => for_each l2 body) s.
Proof.
  revert s. induction l1 as [|x l1 IH]; intros s; simpl.
  - unfold bind, ret. destruct (for_each l2 body s); reflexivity.
  - unfold bind in *. destruct (body x s) as [[[]|e] s1 evs1]; [|reflexivity].
    rewrite IH.
    destruct (for_each l1 body s1) as [[[]|e'] s2 evs2]; [|reflexivity].
    destruct (for_each l2 body s2). rewrite app_assoc. reflexivity.
Qed.

(** Two nested loops are one loop over the pairs. *)
Lemma for_each_nested {A B} (l : list (A * list B))
    (body : A -> B -> M St Ev unit) (s : St) :
  for_each l (fun '(a, bs) => for_each bs (body a)) s
  = for_each (flat_map (fun '(a, bs) => map (fun b => (a, b)) bs) l)
             (fun '(a, b) => body a b) s.
Proof.
  revert s. induction l as [|[a bs] l IH]; intros s; [reflexivity|].
  cbn [flat_map for_each]. rewrite for_each_app. unfold bind.
  assert (Hin : forall s', for_each (map (fun b => (a, b)) bs)
                             (fun '(a, b) => body a b) s'
                           = for_each bs (body a) s').
  { clear. induction bs as [|b bs IH]; intros s'; [reflexivity|].
    simpl. unfold bind. destruct (body a b s') as [[[]|e] s1 evs1]; [|reflexivity].
    rewrite IH. reflexivity. }
  rewrite Hin. destruct (for_each bs (body a) s) as [[[]|e] s1 evs1]; [|reflexivity].
  rewrite IH. reflexivity.
Qed.

End Traces.

End ExecFacts.

(** ** [convert_office_to_pdf.py] *)

Module ConvertOfficeFacts.

Import ConvertOffice PathFacts ExecFacts.

Section Facts.

Context {St : Type} (sys : System St).
Variables output_base_folder processed_base_folder input_folder : path.

Local Abbreviation move_to_processed :=
  (move_to_processed sys processed_base_folder).
Local Abbreviation copy_to_output :=
  (copy_to_output sys processed_base_folder).
Local Abbreviation word_attempt :=
  (word_attempt sys processed_base_folder).
Local Abbreviation convert_word_to_pdf :=
  (convert_word_to_pdf sys processed_base_folder).
Local Abbreviation convert_excel_to_pdf :=
  (convert_excel_to_pdf sys processed_base_folder).
Local Abbreviation convert_powerpoint_to_pdf :=
  (convert_powerpoint_to_pdf sys processed_base_folder).
Local Abbreviation handler := (handler sys processed_base_folder).
Local Abbreviation file_path_of := (file_path_of input_folder).
Local Abbreviation rel_path_of := (rel_path_of input_folder).
Local Abbreviation output_pdf_path_of :=
  (output_pdf_path_of output_base_folder input_folder).
Local Abbreviation process_file :=
  (process_file sys output_base_folder processed_base_folder input_folder).
Local Abbreviation convert_office_files_recursively :=
  (convert_office_files_recursively sys output_base_folder
                                    processed_base_folder input_folder).
Local Abbreviation persistently_failing := (persistently_failing sys).
Local Abbreviation escapes_from_makedirs :=
  (escapes_from_makedirs output_base_folder processed_base_folder input_folder).

(** *** Running the script by cases on the answers of the system *)

Ltac sys_call :=
  match goal with
  | H : os_makedirs ?sy ?p ?s = _ |- context [os_makedirs ?sy ?p ?s] => rewrite H
  | H : os_path_exists ?sy ?p ?s = _ |- context [os_path_exists ?sy ?p ?s] => rewrite H
  | H : office_export ?sy ?k ?a ?b ?s = _
    |- context [office_export ?sy ?k ?a ?b ?s] => rewrite H
  | H : classify ?x = _ |- context [classify ?x] => rewrite H
  | H : ConvertOffice.persistently_failing ?sy ?k ?a ?b
    |- context [office_export ?sy ?k ?a ?b ?s] =>
      let e := fresh "e" in let s' := fresh "s" in let E := fresh "E" in
      destruct (H s) as (e & s' & E); rewrite E; clear E
  | |- context [os_makedirs ?sy ?p ?s] =>
      destruct (os_makedirs sy p s) as [[[]|?e] ?s] eqn:?
  | |- context [os_path_exists ?sy ?p ?s] =>
      destruct (os_path_exists sy p s) eqn:?
  | |- context [classify ?x] =>
      destruct (classify x) as [[]|] eqn:?
  | |- context [office_export ?sy ?k ?a ?b ?s] =>
      destruct (office_export sy k a b s) as [[[]|?e] ?s] eqn:?
  | |- context [shutil_move ?sy ?a ?b ?s] =>
      destruct (shutil_move sy a b s) as [[[]|?e] ?s] eqn:?
  | |- context [shutil_copy ?sy ?a ?b ?s] =>
      destruct (shutil_copy sy a b s) as [[[]|?e] ?s] eqn:?
  end.

Ltac unfold_script :=
  cbv [ConvertOffice.process_file ConvertOffice.handler
       ConvertOffice.convert_word_to_pdf ConvertOffice.convert_excel_to_pdf
       ConvertOffice.convert_powerpoint_to_pdf ConvertOffice.word_loop
       ConvertOffice.word_attempt ConvertOffice.copy_to_output
       ConvertOffice.move_to_processed print_info print_error print_success
       makedirs path_exists move copy export
       bind ret raise try_catch emit call query seq
       Nat.ltb Nat.leb Nat.add result final events app].

Ltac explore := unfold_script; repeat (sys_call; unfold_script).

(** Finding where a [Move] sits in a trace that is known event by event. *)
Ltac split_trace H pre :=
  repeat (destruct pre as [|? pre]; simpl in H;
          [ first [ discriminate H | injection H as <- <- <- <- | idtac ]
          | first [ discriminate H | injection H as <- H ] ]).

Ltac in_trace H :=
  simpl in H;
  repeat (destruct H as [H|H]; [try discriminate H|]); try contradiction.

(** *** The handlers *)

(** A handler returns, whatever the system does. *)
Lemma handler_returns app input_path output_path rel_path s :
  result (handler app input_path output_path rel_path s) = Ok tt.
Proof. destruct app; explore; reflexivity. Qed.

(** The escalation branch of the model is live: an attempt numbered above
    3 that fails logs the final failure and raises again. *)
Lemma word_attempt_escalates input_path output_path rel_path attempt s e s' :
  (3 < attempt)%nat ->
  office_export sys Word input_path output_path s = (Raise e, s') ->
  let o := word_attempt input_path output_path rel_path attempt s in
  result o = Raise e
  /\ In (Log error (FailedToConvert rel_path e)) (events o).
Proof.
  intros Hlt Hx. apply Nat.ltb_lt in Hlt.
  cbv [ConvertOffice.word_attempt ConvertOffice.move_to_processed
       print_info print_error print_success makedirs move export
       bind ret raise try_catch emit call result final events app].
  rewrite Hx, Hlt. split; [reflexivity|]. simpl. tauto.
Qed.

(** C6. In [convert_word_to_pdf] the branch guarded by [attempt > 3] is
    never taken: the guard is false for each of the attempts 0, 1, 2 of
    [range(3)], so the function never raises and never logs the final
    "Failed to convert Word file" line, whatever the system answers. *)
Theorem word_escalation_unreachable input_path output_path rel_path s :
  (forall attempt, In attempt (seq 0 3) -> (3 <? attempt)%nat = false)
  /\ result (convert_word_to_pdf input_path output_path rel_path s) = Ok tt
  /\ (forall rel_path' e,
        ~ In (Log error (FailedToConvert rel_path' e))
             (events (convert_word_to_pdf input_path output_path rel_path s))).
Proof.
  split; [|split].
  - intros attempt H. simpl in H.
    destruct H as [<-|[<-|[<-|[]]]]; reflexivity.
  - exact (handler_returns Word input_path output_path rel_path s).
  - intros rel_path' e. explore; intros H; in_trace H.
Qed.

(** The number of export attempts of each handler, for any system. *)
Lemma export_attempts_bounded input_path output_path rel_path s :
  (exists n, (1 <= n <= 3)%nat
     /\ exports (events (convert_word_to_pdf input_path output_path rel_path s))
        = replicate n (Word, input_path, output_path))
  /\ exports (events (convert_excel_to_pdf input_path output_path rel_path s))
     = [(Excel, input_path, output_path)]
  /\ exports (events (convert_powerpoint_to_pdf input_path output_path rel_path s))
     = [(PowerPoint, input_path, output_path)].
Proof.
  split; [|split].
  - explore; cbn;
      first [ exists 1%nat; split; [lia|reflexivity]
            | exists 2%nat; split; [lia|reflexivity]
            | exists 3%nat; split; [lia|reflexivity] ].
  - explore; reflexivity.
  - explore; reflexivity.
Qed.

(** C4. On an input whose export fails at every attempt, the Word handler
    makes 3 export attempts (the bound of its retry loop) and the Excel and
    PowerPoint handlers make exactly one. *)
Theorem retry_bounds input_path output_path rel_path s :
  (forall app, persistently_failing app input_path output_path) ->
  exports (events (convert_word_to_pdf input_path output_path rel_path s))
  = replicate 3 (Word, input_path, output_path)
  /\ exports (events (convert_excel_to_pdf input_path output_path rel_path s))
     = [(Excel, input_path, output_path)]
  /\ exports (events (convert_powerpoint_to_pdf input_path output_path rel_path s))
     = [(PowerPoint, input_path, output_path)].
Proof.
  intros H.
  pose proof (H Word) as HW.
  pose proof (H Excel) as HE.
  pose proof (H PowerPoint) as HP. clear H.
  repeat split; explore; reflexivity.
Qed.

(** A handler whose export fails at every attempt returns, logs an error
    for the file and does not call [shutil.move]. *)
Lemma handler_failure app input_path output_path rel_path s :
  persistently_failing app input_path output_path ->
  let o := handler app input_path output_path rel_path s in
  result o = Ok tt
  /\ moves (events o) = []
  /\ exists e, In (Log error (ErrorConverting app rel_path e)) (events o).
Proof.
  intros H. destruct app; explore; cbn; (split; [|split]); eauto.
Qed.

(** *** One file *)

Lemma rel_path_of_below d filename :
  rel_path_of d filename = rel (d ++ [filename]).
Proof. apply relpath_below. Qed.

Lemma process_file_moves d filename s :
  moves (events (process_file d filename s)) = []
  \/ exists r, moves (events (process_file d filename s))
               = [(file_path_of d filename,
                   join processed_base_folder (rel_path_of d filename), r)].
Proof. explore; cbn; eauto. Qed.

Lemma process_file_prepared d filename s :
  moves_prepared (events (process_file d filename s)).
Proof.
  explore; intros pre src dst r post H; split_trace H pre.
  all: match goal with
       | |- exists p, ?l = (p ++ _)%list => exists (removelast l)
       end.
  all: reflexivity.
Qed.

(** A file whose destination is reported missing is the only kind of file
    for which an export is attempted. *)
Lemma process_file_no_reconversion d filename s :
  (forall p b, In (Exists p b) (events (process_file d filename s)) -> b = true) ->
  exports (events (process_file d filename s)) = [].
Proof.
  explore; intros H; try reflexivity; exfalso.
  all: discriminate (H (output_pdf_path_of d filename) false
                       (or_intror (or_introl eq_refl))).
Qed.

(** *** The traversal *)

Lemma run_flat walk s :
  convert_office_files_recursively walk s
  = for_each (discovered walk) (fun '(d, filename) => process_file d filename) s.
Proof. exact (for_each_nested walk process_file s). Qed.

(** After a file whose processing returns, the traversal goes on with the
    rest of the directory and of the walk. *)
Lemma run_after_first d filename files rest s :
  result (process_file d filename s) = Ok tt ->
  let o := process_file d filename s in
  let run := convert_office_files_recursively ((d, filename :: files) :: rest) s in
  let cont := convert_office_files_recursively ((d, files) :: rest) (final o) in
  result run = result cont
  /\ final run = final cont
  /\ events run = events o ++ events cont.
Proof.
  intros H. cbn zeta.
  cbv [ConvertOffice.convert_office_files_recursively].
  cbn [for_each]. rewrite bind_assoc.
  exact (bind_ok _ _ s tt H).
Qed.


(** *** Moves of one file over a whole run *)

Lemma moves_app (a b : list Event) : moves (a ++ b) = moves a ++ moves b.
Proof. apply omap_app. Qed.

Lemma moves_from_app file (a b : list Event) :
  moves_from file (a ++ b) = moves_from file a ++ moves_from file b.
Proof. unfold moves_from. rewrite moves_app. apply List.filter_app. Qed.

Lemma process_file_moves_from d filename d' filename' s :
  moves_from (file_path_of d filename) (events (process_file d' filename' s))
  = (if decide ((d', filename') = (d, filename))
     then moves (events (process_file d' filename' s)) else []).
Proof.
  unfold moves_from.
  destruct (process_file_moves d' filename' s) as [->|[r ->]];
    [destruct (decide _); reflexivity|].
  simpl. destruct (decide _) as [E|NE].
  - injection E as -> ->. rewrite bool_decide_eq_true_2; reflexivity.
  - rewrite bool_decide_eq_false_2; [reflexivity|].
    intros E. apply join_below_inj in E as [-> ->]. congruence.
Qed.

Lemma run_moves_from l d filename :
  forall s,
    let evs := events (for_each l (fun '(d, filename) => process_file d filename) s) in
    (~ In (d, filename) l -> moves_from (file_path_of d filename) evs = [])
    /\ (NoDup l ->
        moves_from (file_path_of d filename) evs = []
        \/ exists r, moves_from (file_path_of d filename) evs
                     = [(file_path_of d filename,
                         join processed_base_folder (rel_path_of d filename), r)]).
Proof.
  induction l as [|[d' filename'] l IH]; intros s; cbn zeta.
  - split; auto.
  - rewrite for_each_cons_events, moves_from_app, process_file_moves_from.
    set (tl := match result _ with Ok _ => _ | Raise _ => [] end).
    assert (Htl : (~ In (d, filename) l -> moves_from (file_path_of d filename) tl = [])
                  /\ (NoDup l ->
                      moves_from (file_path_of d filename) tl = []
                      \/ exists r, moves_from (file_path_of d filename) tl
                                   = [(file_path_of d filename,
                                       join processed_base_folder
                                            (rel_path_of d filename), r)])).
    { subst tl. destruct (result _); [apply IH|]. split; auto. }
    clearbody tl. destruct Htl as [Hout Hin].
    destruct (decide _) as [E|NE].
    + injection E as -> ->. split.
      * intros H. exfalso. apply H. left; reflexivity.
      * intros Hnd. apply NoDup_cons in Hnd as [Hnotin _].
        rewrite Hout, app_nil_r by (intros H; apply Hnotin, list_elem_of_In, H).
        destruct (process_file_moves d filename s) as [->|[r ->]]; eauto.
    + simpl. split.
      * intros H. apply Hout. intros H'. apply H. right; exact H'.
      * intros Hnd. apply NoDup_cons in Hnd as [_ Hnd]. auto.
Qed.


(** *** Files whose destination exists *)

Lemma no_reconversion_compositional :
  compositional (fun evs : list Event =>
    (forall p b, In (Exists p b) evs -> b = true) -> exports evs = []).
Proof.
  split; [reflexivity|]. intros a b Ha Hb H.
  unfold exports in *. rewrite omap_app, Ha, Hb; [reflexivity| |];
    intros p c Hin; apply (H p c), in_or_app; auto.
Qed.

Lemma run_no_reconversion walk s :
  (forall p b, In (Exists p b) (events (convert_office_files_recursively walk s))
               -> b = true) ->
  exports (events (convert_office_files_recursively walk s)) = [].
Proof.
  rewrite run_flat.
  apply (events_for_each _ _ _ _ no_reconversion_compositional).
  intros [d filename] s' _. apply process_file_no_reconversion.
Qed.

Lemma process_file_exports_checked d filename s :
  exports_checked (events (process_file d filename s)).
Proof.
  explore; intros pre app src dst r post H;
    repeat (destruct pre as [|? pre]; simpl in H;
            [ first [ discriminate H | injection H as <- <- <- <- <- | idtac ]
            | first [ discriminate H | injection H as <- H ] ]).
  all: simpl; auto.
Qed.

Lemma exports_checked_compositional : compositional exports_checked.
Proof.
  split.
  - intros [|? pre] ? ? ? ? ? H; discriminate H.
  - intros a b Ha Hb pre app src dst r post H.
    apply app_eq_app in H as [l [[-> H]|[-> H]]].
    + destruct l as [|ev l].
      * simpl in H. destruct (Hb [] app src dst r post (eq_sym H)).
      * injection H as <- ->. exact (Ha pre app src dst r l eq_refl).
    + apply in_or_app. right. exact (Hb l app src dst r post H).
Qed.

Lemma run_exports_checked walk s :
  exports_checked (events (convert_office_files_recursively walk s)).
Proof.
  rewrite run_flat.
  apply (events_for_each _ _ _ _ exports_checked_compositional).
  intros [d filename] s' _. apply process_file_exports_checked.
Qed.

(** On any system, a file whose destination in the output tree exists is
    not converted: no export is attempted, the skip is logged, and the
    file is handed to [move_to_processed] with its relative path
    [d/filename], which calls [shutil.move] with the same relative path
    under the archive root once the directory there is made.  In any run,
    an export is attempted only after its destination was found missing,
    and a run in which every destination is found to exist attempts no
    export at all. *)
Lemma skipped_file_trace d filename s s1 :
  os_makedirs sys (dirname (output_pdf_path_of d filename)) s = (Ok tt, s1) ->
  os_path_exists sys (output_pdf_path_of d filename) s1 = true ->
  let o := process_file d filename s in
  let file_path := file_path_of d filename in
  let rel_path := rel (d ++ [filename]) in
  let archive := move_to_processed file_path rel_path s1 in
  exports (events o) = []
  /\ events o
     = [Makedirs (dirname (output_pdf_path_of d filename)) (Ok tt);
        Exists (output_pdf_path_of d filename) true;
        Log info (SkippingConverted rel_path)] ++ events archive
  /\ result o = result archive
  /\ (forall s2,
        os_makedirs sys (join processed_base_folder (rel d)) s1 = (Ok tt, s2) ->
        moves (events o)
        = [(file_path, join processed_base_folder rel_path,
            fst (shutil_move sys file_path
                             (join processed_base_folder rel_path) s2))])
  /\ (forall walk s0,
        exports_checked (events (convert_office_files_recursively walk s0)))
  /\ (forall walk s0,
        (forall p b,
            In (Exists p b) (events (convert_office_files_recursively walk s0))
            -> b = true) ->
        exports (events (convert_office_files_recursively walk s0)) = []).
Proof.
  intros Hmk Hex. cbn zeta.
  split; [|split; [|split; [|split; [|split; [exact run_exports_checked|]]]]].
  - explore; reflexivity.
  - unfold_script. rewrite Hmk. unfold_script. rewrite Hex. unfold_script.
    rewrite !rel_path_of_below. explore; reflexivity.
  - unfold_script. rewrite Hmk. unfold_script. rewrite Hex. unfold_script.
    rewrite !rel_path_of_below. explore; reflexivity.
  - intros s2 Hmk2.
    unfold_script. rewrite Hmk. unfold_script. rewrite Hex. unfold_script.
    rewrite !rel_path_of_below, !dirname_join_below, Hmk2. unfold_script.
    destruct (shutil_move _ _ _ _) as [[[]|e] s3]; reflexivity.
  - exact run_no_reconversion.
Qed.

(** *** The archive tree *)

Lemma in_moves src dst r (evs : list Event) :
  In (Move src dst r) evs -> In (src, dst, r) (moves evs).
Proof.
  induction evs as [|ev evs IH]; simpl; [tauto|].
  intros [->|H]; [left; reflexivity|].
  destruct ev; simpl; auto.
Qed.

Lemma moves_in src dst r (evs : list Event) :
  In (src, dst, r) (moves evs) -> In (Move src dst r) evs.
Proof.
  induction evs as [|ev evs IH]; simpl; [tauto|].
  destruct ev; simpl; auto.
  intros [E|H]; [left; congruence|auto].
Qed.

Lemma process_file_move_args d filename s src dst r :
  In (Move src dst r) (events (process_file d filename s)) ->
  src = file_path_of d filename
  /\ dst = join processed_base_folder (rel_path_of d filename).
Proof.
  intros H. apply in_moves in H.
  destruct (process_file_moves d filename s) as [E|[r' E]]; rewrite E in H.
  - destruct H.
  - destruct H as [H|[]]. injection H as <- <- <-. auto.
Qed.

Lemma moves_prepared_compositional : compositional moves_prepared.
Proof.
  split.
  - intros [|? pre] ? ? ? ? H; discriminate H.
  - intros a b Ha Hb pre src dst r post H.
    apply app_eq_app in H as [l [[-> H]|[-> H]]].
    + destruct l as [|ev l].
      * simpl in H.
        destruct (Hb [] src dst r post) as [pre' E]; [symmetry; exact H|].
        destruct pre'; discriminate E.
      * injection H as <- ->. apply (Ha pre src dst r l). reflexivity.
    + destruct (Hb l src dst r post H) as [pre' ->].
      exists (a ++ pre'). rewrite app_assoc. reflexivity.
Qed.

Lemma run_prepared walk s :
  moves_prepared (events (convert_office_files_recursively walk s)).
Proof.
  rewrite run_flat.
  apply (events_for_each _ _ _ _ moves_prepared_compositional).
  intros [d filename] s' _. apply process_file_prepared.
Qed.

Lemma run_move_args walk s src dst r :
  In (Move src dst r) (events (convert_office_files_recursively walk s)) ->
  exists d filename,
    In (d, filename) (discovered walk)
    /\ src = file_path_of d filename
    /\ dst = join processed_base_folder (rel_path_of d filename).
Proof.
  rewrite run_flat. intros H.
  pose (Q := fun ev : Event =>
    forall src dst r, ev = Move src dst r ->
      exists d filename,
        In (d, filename) (discovered walk)
        /\ src = file_path_of d filename
        /\ dst = join processed_base_folder (rel_path_of d filename)).
  assert (HQ : Forall Q (events (for_each (discovered walk)
                 (fun '(d, filename) => process_file d filename) s))).
  { apply (events_for_each _ _ _ _ (compositional_Forall Q)).
    intros [d filename] s' Hin. apply Forall_forall.
    intros ev Hev src' dst' r' ->.
    apply list_elem_of_In, process_file_move_args in Hev.
    exists d, filename. tauto. }
  rewrite Forall_forall in HQ.
  apply (HQ _ (proj2 (list_elem_of_In _ _) H) src dst r eq_refl).
Qed.

(** On any system, every call of [shutil.move] of a run has for source
    a discovered file [input_folder/d/filename] and for destination the
    archive root joined with the file's relative path [d/filename],
    however deep [d] is, and comes right after an [os.makedirs] of the
    directory [processed_base_folder/d] of that destination that
    returned. *)
Lemma moves_mirror_relative_path walk s pre src dst r post :
  events (convert_office_files_recursively walk s) = pre ++ Move src dst r :: post ->
  exists d filename pre',
    In (d, filename) (discovered walk)
    /\ src = file_path_of d filename
    /\ rel_path_of d filename = rel (d ++ [filename])
    /\ dst = join processed_base_folder (rel (d ++ [filename]))
    /\ parts dst = parts processed_base_folder ++ d ++ [filename]
    /\ pre = pre' ++ [Makedirs (join processed_base_folder (rel d)) (Ok tt)].
Proof.
  intros H.
  destruct (run_move_args walk s src dst r) as (d & filename & Hin & -> & ->).
  { rewrite H. apply in_or_app. right; left; reflexivity. }
  destruct (run_prepared walk s _ _ _ _ _ H) as [pre' ->].
  exists d, filename, pre'.
  rewrite rel_path_of_below, dirname_join_below. 
  repeat split; auto.
Qed.

(** C5. In a run over a walk that yields no file twice, [shutil.move]
    is called at most once on each discovered file, and the file ends in
    exactly one of two states: [Archived], when that one call moved it to
    its place under the archive root and returned, or [Retained], when no
    call of [shutil.move] on it returned. *)
Theorem one_terminal_state walk s d filename :
  NoDup (discovered walk) ->
  In (d, filename) (discovered walk) ->
  let evs := events (convert_office_files_recursively walk s) in
  let file_path := file_path_of d filename in
  let archive_path := join processed_base_folder (rel (d ++ [filename])) in
  (List.length (moves_from file_path evs) <= 1)%nat
  /\ (terminal_state file_path evs = Archived
      <-> moves_from file_path evs = [(file_path, archive_path, Ok tt)])
  /\ (terminal_state file_path evs = Retained
      <-> forall dst, ~ In (Move file_path dst (Ok tt)) evs)
  /\ (terminal_state file_path evs = Archived
      \/ terminal_state file_path evs = Retained).
Proof.
  intros Hnd Hin. cbn zeta. rewrite run_flat.
  destruct (run_moves_from (discovered walk) d filename s) as [_ Hcases].
  specialize (Hcases Hnd). rewrite rel_path_of_below in Hcases.
  set (evs := events _) in *.
  assert (Hret : forall dst, In (Move (file_path_of d filename) dst (Ok tt)) evs
                 <-> In (file_path_of d filename, dst, Ok tt)
                        (moves_from (file_path_of d filename) evs)).
  { intros dst. unfold moves_from. rewrite filter_In. simpl.
    rewrite bool_decide_eq_true. split.
    - intros H. split; [apply in_moves, H|reflexivity].
    - intros [H _]. apply moves_in, H. }
  unfold terminal_state.
  destruct Hcases as [E|[[[]|e] E]]; rewrite E in *; simpl.
  - repeat split; try discriminate; auto.
    intros _ dst H. apply Hret in H. destruct H.
  - repeat split; try discriminate; auto.
    intros H. exfalso. apply (H (join processed_base_folder (rel (d ++ [filename])))).
    apply Hret. left; reflexivity.
  - repeat split; try discriminate; auto.
    intros _ dst H. apply Hret in H. destruct H as [H|[]]. discriminate H.
Qed.

(** *** Unsupported files *)

(** What the script does with a file that no handler takes and whose
    destination does not exist: the copy goes to the archive root joined
    with the PDF path under the output root. *)
Lemma unsupported_file_trace d filename s s1 :
  classify (file_ext_of filename) = None ->
  os_makedirs sys (dirname (output_pdf_path_of d filename)) s = (Ok tt, s1) ->
  os_path_exists sys (output_pdf_path_of d filename) s1 = false ->
  let o := process_file d filename s in
  let copy_dst := join processed_base_folder (output_pdf_path_of d filename) in
  forall src dst r, In (Copy src dst r) (events o) ->
    src = file_path_of d filename /\ dst = copy_dst.
Proof.
  intros Hext Hmk Hex. cbn zeta. intros src dst r.
  explore; intros H; in_trace H; injection H as <- <- <-; auto.
Qed.

(** *** The trace as a log of the run *)

Lemma replay_app (a b : list Event) (s : St) :
  replay sys (a ++ b) s = replay sys b (replay sys a s).
Proof. revert s. induction a as [|ev a IH]; intros s; simpl; auto. Qed.

Lemma faithful_app (a b : list Event) (s : St) :
  faithful sys (a ++ b) s <-> faithful sys a s /\ faithful sys b (replay sys a s).
Proof.
  revert s. induction a as [|ev a IH]; intros s; simpl; [tauto|].
  rewrite IH. tauto.
Qed.

Ltac replay_calls :=
  repeat match goal with
         | H : _ = (_, _) |- _ => rewrite H; clear H; simpl
         | H : os_path_exists _ _ _ = _ |- _ => rewrite H; clear H; simpl
         end.

(** The trace of a file records what the system answered, call by call,
    and the state that the processing leaves is the one that these calls
    lead to. *)
Lemma process_file_faithful d filename s :
  faithful sys (events (process_file d filename s)) s
  /\ final (process_file d filename s)
     = replay sys (events (process_file d filename s)) s.
Proof.
  explore; simpl; replay_calls; repeat split; auto.
Qed.

Lemma run_faithful walk s :
  faithful sys (events (convert_office_files_recursively walk s)) s
  /\ final (convert_office_files_recursively walk s)
     = replay sys (events (convert_office_files_recursively walk s)) s.
Proof.
  rewrite run_flat. generalize (discovered walk). intros l. revert s.
  induction l as [|[d filename] l IH]; intros s; [simpl; auto|].
  destruct (process_file_faithful d filename s) as [Hf Hs].
  destruct (result (process_file d filename s)) as [[]|e] eqn:Hr.
  - destruct (for_each_cons_ok (d, filename) l
                (fun '(d, filename) => process_file d filename) s Hr)
      as (_ & Hfin & Hev).
    cbn zeta in Hfin, Hev. rewrite Hfin, Hev, faithful_app, replay_app, <- Hs.
    destruct (IH (final (process_file d filename s))) as [IHf IHs]. auto.
  - rewrite (for_each_cons_raise (d, filename) l
               (fun '(d, filename) => process_file d filename) s e Hr).
    simpl. auto.
Qed.

(** Every export of a run is an export of a discovered file. *)
Lemma process_file_exports_source d filename s app src dst r :
  In (Export app src dst r) (events (process_file d filename s)) ->
  src = file_path_of d filename.
Proof.
  explore; simpl; intros H;
    repeat (destruct H as [H|H];
            [first [discriminate H | injection H as <- <- <- <-]|]);
    try contradiction; reflexivity.
Qed.

Lemma run_exports_source walk s app src dst r :
  In (Export app src dst r) (events (convert_office_files_recursively walk s)) ->
  exists d filename,
    In (d, filename) (discovered walk) /\ src = file_path_of d filename.
Proof.
  rewrite run_flat. intros H.
  pose (Q := fun ev : Event =>
    forall app src dst r, ev = Export app src dst r ->
      exists d filename,
        In (d, filename) (discovered walk) /\ src = file_path_of d filename).
  assert (HQ : Forall Q (events (for_each (discovered walk)
                 (fun '(d, filename) => process_file d filename) s))).
  { apply (events_for_each _ _ _ _ (compositional_Forall Q)).
    intros [d filename] s' Hin. apply Forall_forall.
    intros ev Hev app' src' dst' r' ->.
    apply list_elem_of_In, process_file_exports_source in Hev.
    exists d, filename. auto. }
  rewrite Forall_forall in HQ.
  apply (HQ _ (proj2 (list_elem_of_In _ _) H) app src dst r eq_refl).
Qed.

(** ** More on [convert_office_to_pdf.py] *)

(** *** Where the PDF goes *)

Lemma map_last_snoc (f : string -> string) (l : list string) (x : string) :
  map_last f (l ++ [x]) = l ++ [f x].
Proof.
  induction l as [|y l IH]; [reflexivity|].
  simpl. rewrite IH. destruct (l ++ [x]) eqn:E; [|reflexivity].
  destruct l; discriminate E.
Qed.

Lemma string_of_list_ascii_app (a b : list ascii) :
  string_of_list_ascii (a ++ b)
  = string_of_list_ascii a +:+ string_of_list_ascii b.
Proof. induction a as [|c a IH]; simpl; [reflexivity|]. rewrite IH. reflexivity. Qed.

Lemma string_app_empty_r (s : string) : s +:+ EmptyString = s.
Proof.
  induction s as [|c s IH]; [reflexivity|].
  change (String c (s +:+ EmptyString) = String c s). f_equal. exact IH.
Qed.

(** [root + ext == name], as [os.path.splitext] promises. *)
Lemma splitext_name_join (name : string) :
  fst (splitext_name name) +:+ snd (splitext_name name) = name.
Proof.
  unfold splitext_name.
  destruct (rfind_dot (list_ascii_of_string name)) as [i|]; simpl.
  - destruct (forallb _ _); simpl.
    + apply string_app_empty_r.
    + rewrite <- string_of_list_ascii_app, take_drop.
      apply string_of_list_ascii_of_string.
  - apply string_app_empty_r.
Qed.

Lemma add_suffix_snoc (a : bool) (l : list string) (x suffix : string) :
  add_suffix (Mk a (l ++ [x])) suffix = Mk a (l ++ [x +:+ suffix]).
Proof.
  unfold add_suffix. simpl.
  rewrite <- (map_last_snoc (fun s => s +:+ suffix)).
  destruct (l ++ [x]) eqn:E; [destruct l; discriminate E|reflexivity].
Qed.

(** X1. The PDF of a file found [d] directories below the input root is
    written [d] directories below the output root, whatever the depth,
    under the name of the file with its extension replaced by [.pdf]. *)
Theorem pdf_path_mirrors_directory d filename :
  let stem := fst (splitext_name filename) in
  let ext := snd (splitext_name filename) in
  stem +:+ ext = filename
  /\ output_pdf_path_of d filename
     = join output_base_folder (rel (d ++ [stem +:+ ".pdf"]))
  /\ dirname (output_pdf_path_of d filename) = join output_base_folder (rel d)
  /\ basename (output_pdf_path_of d filename) = stem +:+ ".pdf".
Proof.
  cbn zeta. split; [apply splitext_name_join|].
  assert (E : output_pdf_path_of d filename
              = join output_base_folder
                     (rel (d ++ [fst (splitext_name filename) +:+ ".pdf"]))).
  { unfold ConvertOffice.output_pdf_path_of. rewrite rel_path_of_below.
    unfold splitext_root, rel. simpl.
    rewrite map_last_snoc, add_suffix_snoc. reflexivity. }
  rewrite E. split; [reflexivity|]. split.
  - apply dirname_join_below.
  - unfold basename, join. simpl. rewrite app_assoc. apply last_last.
Qed.

(** X2. Two files of a directory whose names differ only in their
    extension get the same PDF path; so, once the PDF of the first is
    there, the second is skipped as already converted: no export is
    attempted for it. *)
Theorem same_stem_files_collide d filename1 filename2 s s1 :
  fst (splitext_name filename1) = fst (splitext_name filename2) ->
  os_makedirs sys (dirname (output_pdf_path_of d filename2)) s = (Ok tt, s1) ->
  os_path_exists sys (output_pdf_path_of d filename1) s1 = true ->
  output_pdf_path_of d filename1 = output_pdf_path_of d filename2
  /\ exports (events (process_file d filename2 s)) = []
  /\ In (Log info (SkippingConverted (rel (d ++ [filename2]))))
        (events (process_file d filename2 s)).
Proof.
  intros Hstem Hmk Hex.
  assert (E : output_pdf_path_of d filename1 = output_pdf_path_of d filename2).
  { unfold ConvertOffice.output_pdf_path_of. rewrite !rel_path_of_below.
    unfold splitext_root. simpl. rewrite !map_last_snoc, Hstem. reflexivity. }
  rewrite E in Hex. split; [exact E|].
  rewrite <- rel_path_of_below.
  split; explore; simpl; auto.
Qed.

(** *** Exceptions that leave the traversal *)

(** X3. The [os.makedirs] of the output directory is outside every
    [try]: when it raises for a file, the traversal ends there with that
    exception, and neither the rest of the directory nor the rest of the
    walk is processed. *)
Theorem output_directory_failure_aborts d filename files rest s e s1 :
  os_makedirs sys (dirname (output_pdf_path_of d filename)) s = (Raise e, s1) ->
  convert_office_files_recursively ((d, filename :: files) :: rest) s
  = MkOut (Raise e) s1
          [Makedirs (dirname (output_pdf_path_of d filename)) (Raise e)].
Proof.
  intros H.
  cbv [ConvertOffice.convert_office_files_recursively].
  cbn [for_each]. rewrite bind_assoc.
  unfold bind at 1.
  assert (E : process_file d filename s
              = MkOut (Raise e) s1
                  [Makedirs (dirname (output_pdf_path_of d filename)) (Raise e)]).
  { explore. reflexivity. }
  rewrite E. reflexivity.
Qed.

(** An exception leaves the processing of a file only from one of the
    four calls of [os.makedirs] that no [try] encloses.  The call of
    [os.makedirs] that [move_to_processed] makes inside a handler is not
    one of them: the handler's [except] takes it. *)
Lemma process_file_escapes d filename s e :
  result (process_file d filename s) = Raise e ->
  escapes_from_makedirs d filename e (events (process_file d filename s)).
Proof.
  unfold ConvertOffice.escapes_from_makedirs. cbn zeta.
  rewrite <- rel_path_of_below.
  explore; intros H; try discriminate H; injection H as <-.
  all: match goal with
       | |- exists pre, ?l = _ \/ _ =>
           first
             [ exists (removelast l); left; reflexivity
             | exists (removelast (removelast (removelast l)));
               right; left; reflexivity
             | exists (removelast (removelast (removelast l)));
               right; right; left; split; reflexivity
             | exists (removelast (removelast (removelast l)));
               right; right; right; split; [reflexivity|];
               first [ exists (Ok tt); reflexivity
                     | eexists (Raise _); reflexivity ] ]
       end.
Qed.


(** *** Failures that stay inside *)

(** X5. For an unsupported file, a failed [shutil.copy] is logged and
    nothing more: the file is still handed to [move_to_processed], so it
    can leave the input tree without a copy having been made. *)
Theorem failed_copy_still_archives d filename s s1 s2 e s3 :
  classify (file_ext_of filename) = None ->
  os_makedirs sys (dirname (output_pdf_path_of d filename)) s = (Ok tt, s1) ->
  os_path_exists sys (output_pdf_path_of d filename) s1 = false ->
  os_makedirs sys
    (dirname (join processed_base_folder (output_pdf_path_of d filename))) s1
  = (Ok tt, s2) ->
  shutil_copy sys (file_path_of d filename)
    (join processed_base_folder (output_pdf_path_of d filename)) s2
  = (Raise e, s3) ->
  let o := process_file d filename s in
  let archive :=
    move_to_processed (file_path_of d filename) (rel (d ++ [filename])) s3 in
  events o
  = [Makedirs (dirname (output_pdf_path_of d filename)) (Ok tt);
     Exists (output_pdf_path_of d filename) false;
     Log info (SkippingUnsupported (rel (d ++ [filename])));
     Makedirs (dirname (join processed_base_folder
                             (output_pdf_path_of d filename))) (Ok tt);
     Copy (file_path_of d filename)
          (join processed_base_folder (output_pdf_path_of d filename))
          (Raise e);
     Log error (ErrorCopying (file_path_of d filename) e)]
    ++ events archive
  /\ result o = result archive
  /\ final o = final archive.
Proof.
  intros Hext Hmk Hex Hmk2 Hcopy. cbn zeta.
  unfold_script. rewrite Hmk. unfold_script. rewrite Hex. unfold_script.
  rewrite Hext. unfold_script. rewrite Hmk2. unfold_script.
  rewrite Hcopy. unfold_script. rewrite !rel_path_of_below.
  explore; auto.
Qed.

(** X6. A document that converts but whose archive directory cannot be
    made: the Word handler takes the failure of [os.makedirs] for a failed
    conversion, logs it as such and converts the document again, three
    times in all; the Excel and PowerPoint handlers convert once.  In
    each case the handler returns and the source is not moved. *)
Theorem archive_directory_failure_reconverts app input_path output_path rel_path s :
  (forall s', exists s'',
      office_export sys app input_path output_path s' = (Ok tt, s'')) ->
  (forall s', exists e s'',
      os_makedirs sys (dirname (join processed_base_folder rel_path)) s'
      = (Raise e, s'')) ->
  let o := handler app input_path output_path rel_path s in
  result o = Ok tt
  /\ moves (events o) = []
  /\ exports (events o)
     = replicate (match app with Word => 3 | _ => 1 end)
                 (app, input_path, output_path)
  /\ (exists e, In (Makedirs (dirname (join processed_base_folder rel_path))
                             (Raise e)) (events o)
                /\ In (Log error (ErrorConverting app rel_path e)) (events o)).
Proof.
  intros Hexp Hmk. cbn zeta.
  assert (Hstep : forall s',
    exists e s1 s2,
      office_export sys app input_path output_path s' = (Ok tt, s1)
      /\ os_makedirs sys (dirname (join processed_base_folder rel_path)) s1
         = (Raise e, s2)).
  { intros s'. destruct (Hexp s') as (s1 & E1).
    destruct (Hmk s1) as (e & s2 & E2). eauto. }
  clear Hexp Hmk.
  destruct app; unfold_script.
  - destruct (Hstep s) as (e1 & s1 & s2 & -> & E1). unfold_script.
    rewrite E1. unfold_script.
    destruct (Hstep s2) as (e2 & s3 & s4 & -> & E2). unfold_script.
    rewrite E2. unfold_script.
    destruct (Hstep s4) as (e3 & s5 & s6 & -> & E3). unfold_script.
    rewrite E3. unfold_script.
    repeat split. exists e1. simpl. auto 10.
  - destruct (Hstep s) as (e1 & s1 & s2 & -> & E1). unfold_script.
    rewrite E1. unfold_script.
    repeat split. exists e1. simpl. auto 10.
  - destruct (Hstep s) as (e1 & s1 & s2 & -> & E1). unfold_script.
    rewrite E1. unfold_script.
    repeat split. exists e1. simpl. auto 10.
Qed.

(** X7. A call of [shutil.move] ends a handler, whether it returned or
    raised: after it the handler logs one line and stops, so a failed move
    is never retried and a moved document is never exported again. *)
Theorem move_ends_the_handler app input_path output_path rel_path s
    pre src dst r post :
  events (handler app input_path output_path rel_path s)
  = pre ++ Move src dst r :: post ->
  exports post = []
  /\ moves post = []
  /\ post = [match r with
             | Ok _ => Log info (MovedToProcessed rel_path)
             | Raise e => Log error (ErrorMoving input_path e)
             end].
Proof.
  destruct app; explore; intros H; split_trace H pre; auto.
Qed.

(** *** The script body *)

Local Abbreviation main :=
  (main sys output_base_folder processed_base_folder input_folder).

(** X8. The script makes its three root directories before anything
    else, outside every [try]: if one of them cannot be made the script
    raises before "Start processing" and before any file is looked at.
    "Finish processing" is logged exactly when the whole script
    returns. *)
Theorem main_brackets_the_run log_folder walk s :
  let o := main log_folder walk s in
  (In (Log info StartProcessing) (events o)
   <-> exists s3,
         events o
         = [Makedirs output_base_folder (Ok tt);
            Makedirs processed_base_folder (Ok tt);
            Makedirs log_folder (Ok tt);
            Log info StartProcessing]
           ++ events (convert_office_files_recursively walk s3)
           ++ (match result (convert_office_files_recursively walk s3) with
               | Ok _ => [Log success FinishProcessing]
               | Raise _ => []
               end))
  /\ (~ In (Log info StartProcessing) (events o) ->
      exists e, result o = Raise e
                /\ Forall (fun ev => exists dir r, ev = Makedirs dir r) (events o)
                /\ (List.length (events o) <= 3)%nat)
  /\ (result o = Ok tt <-> In (Log success FinishProcessing) (events o)).
Proof.
  cbn zeta.
  assert (Hrun : forall walk s ev,
             In ev (events (convert_office_files_recursively walk s)) ->
             ev <> Log info StartProcessing /\ ev <> Log success FinishProcessing).
  { clear. intros walk s.
    pose (Q := fun ev : Event =>
                 ev <> Log info StartProcessing
                 /\ ev <> Log success FinishProcessing).
    assert (HQ : Forall Q (events (convert_office_files_recursively walk s))).
    { rewrite run_flat.
      apply (events_for_each _ _ _ _ (compositional_Forall Q)).
      intros [d filename] s' _. unfold Q.
      explore; repeat constructor; discriminate. }
    intros ev Hev. rewrite Forall_forall in HQ.
    apply HQ, list_elem_of_In, Hev. }
  cbv [ConvertOffice.main makedirs print_info print_success
       bind ret emit call result final events].
  destruct (os_makedirs sys output_base_folder s) as [[[]|e1] s1].
  - destruct (os_makedirs sys processed_base_folder s1) as [[[]|e2] s2].
    + destruct (os_makedirs sys log_folder s2) as [[[]|e3] s3].
      * specialize (Hrun walk s3). split; [|split].
        -- split; [intros _; exists s3|].
           ++ destruct (convert_office_files_recursively walk s3)
                as [[[]|e4] s4 evs4]; simpl; rewrite ?app_nil_r; reflexivity.
           ++ intros _.
              destruct (convert_office_files_recursively walk s3)
                as [[[]|e4] s4 evs4]; simpl; auto.
        -- intros H. exfalso. apply H.
           destruct (convert_office_files_recursively walk s3)
             as [[[]|e4] s4 evs4]; simpl; auto.
        -- destruct (convert_office_files_recursively walk s3)
             as [[[]|e4] s4 evs4]; simpl in *.
           ++ split; [intros _|reflexivity].
              do 4 right. apply in_or_app. right. left. reflexivity.
           ++ split; [discriminate|]. intros H.
              repeat (destruct H as [H|H]; [discriminate H|]).
              apply Hrun in H. destruct H as [_ H]. congruence.
      * simpl. split; [|split].
        -- split; [intros H; in_trace H|intros [s' H]; discriminate H].
        -- intros _. exists e3. repeat split; [|simpl; lia].
           repeat constructor; eauto.
        -- split; [discriminate|intros H; in_trace H].
    + simpl. split; [|split].
      * split; [intros H; in_trace H|intros [s' H]; discriminate H].
      * intros _. exists e2. repeat split; [|simpl; lia].
        repeat constructor; eauto.
      * split; [discriminate|intros H; in_trace H].
  - simpl. split; [|split].
    + split; [intros H; in_trace H|intros [s' H]; discriminate H].
    + intros _. exists e1. repeat split; [|simpl; lia].
      repeat constructor; eauto.
    + split; [discriminate|intros H; in_trace H].
Qed.

(** *** Which handler takes a file *)

Lemma is_dot_lower_ascii (c : ascii) : is_dot (lower_ascii c) = is_dot c.
Proof. destruct c as [[] [] [] [] [] [] [] []]; reflexivity. Qed.

Lemma lower_ascii_idempotent (c : ascii) :
  lower_ascii (lower_ascii c) = lower_ascii c.
Proof. destruct c as [[] [] [] [] [] [] [] []]; reflexivity. Qed.

Lemma lower_idempotent (s : string) : lower (lower s) = lower s.
Proof.
  induction s as [|c s IH]; [reflexivity|].
  simpl. rewrite lower_ascii_idempotent, IH. reflexivity.
Qed.

Lemma list_ascii_of_lower (s : string) :
  list_ascii_of_string (lower s) = map lower_ascii (list_ascii_of_string s).
Proof. induction s as [|c s IH]; [reflexivity|]. simpl. rewrite IH. reflexivity. Qed.

Lemma string_of_lowered_list (l : list ascii) :
  string_of_list_ascii (map lower_ascii l) = lower (string_of_list_ascii l).
Proof. induction l as [|c l IH]; [reflexivity|]. simpl. rewrite IH. reflexivity. Qed.

Lemma rfind_dot_lower (l : list ascii) :
  rfind_dot (map lower_ascii l) = rfind_dot l.
Proof.
  induction l as [|c l IH]; [reflexivity|].
  simpl. rewrite IH, is_dot_lower_ascii. reflexivity.
Qed.

Lemma forallb_is_dot_lower (l : list ascii) :
  forallb is_dot (map lower_ascii l) = forallb is_dot l.
Proof.
  induction l as [|c l IH]; [reflexivity|].
  simpl. rewrite IH, is_dot_lower_ascii. reflexivity.
Qed.

(** Lower-casing a name lower-cases its root and its extension. *)
Lemma splitext_name_lower (name : string) :
  splitext_name (lower name)
  = (lower (fst (splitext_name name)), lower (snd (splitext_name name))).
Proof.
  unfold splitext_name.
  rewrite list_ascii_of_lower, rfind_dot_lower.
  destruct (rfind_dot (list_ascii_of_string name)) as [i|]; [|reflexivity].
  rewrite !firstn_map, forallb_is_dot_lower.
  destruct (forallb _ _); [reflexivity|]. simpl.
  rewrite skipn_map, !string_of_lowered_list. reflexivity.
Qed.

Lemma lower_ascii_below_128 (c : ascii) :
  (nat_of_ascii c <? 128)%nat = true ->
  (nat_of_ascii (lower_ascii c) <? 128)%nat = true.
Proof. destruct c as [[] [] [] [] [] [] [] []]; intros H; exact H || reflexivity. Qed.

Lemma ascii_only_lower (s : string) :
  ascii_only s = true -> ascii_only (lower s) = true.
Proof.
  unfold ascii_only. induction s as [|c s IH]; simpl; [auto|].
  intros H. apply andb_true_iff in H as [Hc Hs].
  apply andb_true_iff. split; [apply lower_ascii_below_128, Hc|apply IH, Hs].
Qed.

Lemma ascii_only_extension (name : string) :
  ascii_only name = true -> ascii_only (snd (splitext_name name)) = true.
Proof.
  unfold ascii_only, splitext_name. intros H.
  destruct (rfind_dot (list_ascii_of_string name)) as [i|]; [|reflexivity].
  destruct (forallb is_dot _); [reflexivity|]. simpl.
  rewrite list_ascii_of_string_of_list_ascii.
  rewrite <- (firstn_skipn i (list_ascii_of_string name)), forallb_app in H.
  apply andb_true_iff in H as [_ H]. exact H.
Qed.

(** X9. For names made of ASCII characters, on which [lower] is
    [str.lower()], the handler of a file does not depend on the case of
    its name: two such names that are equal up to case have the same
    lower-cased extension, itself made of ASCII characters, and go to the
    same handler, or both to none. *)
Theorem extension_case_is_ignored filename1 filename2 :
  ascii_only filename1 = true ->
  ascii_only filename2 = true ->
  lower filename1 = lower filename2 ->
  file_ext_of filename1 = file_ext_of filename2
  /\ ascii_only (file_ext_of filename1) = true
  /\ classify (file_ext_of filename1) = classify (file_ext_of filename2).
Proof.
  intros H1 H2 H.
  assert (E : forall name, file_ext_of name = snd (splitext_name (lower name))).
  { intros name. unfold file_ext_of. rewrite splitext_name_lower. reflexivity. }
  split; [|split].
  - rewrite (E filename1), (E filename2), H. reflexivity.
  - unfold file_ext_of. apply ascii_only_lower, ascii_only_extension, H1.
  - rewrite (E filename1), (E filename2), H. reflexivity.
Qed.

Lemma rfind_dot_none (l : list ascii) :
  (forall c, In c l -> is_dot c = false) -> rfind_dot l = None.
Proof.
  induction l as [|c l IH]; intros H; [reflexivity|].
  simpl. rewrite IH by (intros c' Hc'; apply H; right; exact Hc').
  rewrite (H c) by (left; reflexivity). reflexivity.
Qed.

(** X10. A name without a dot has no extension, and neither has a name
    whose only dot is its first character: [README] and [.docx] alike are
    taken by no handler. *)
Theorem names_without_extension_are_unsupported name :
  (forall c, In c (list_ascii_of_string name) -> is_dot c = false) ->
  classify (file_ext_of name) = None
  /\ classify (file_ext_of (String "." name)) = None
  /\ output_pdf_path_of [] (String "." name)
     = join output_base_folder (rel [String "." name +:+ ".pdf"]).
Proof.
  intros H.
  assert (E1 : splitext_name name = (name, EmptyString)).
  { unfold splitext_name. rewrite (rfind_dot_none _ H). reflexivity. }
  assert (E2 : splitext_name (String "." name) = (String "." name, EmptyString)).
  { unfold splitext_name. simpl. rewrite (rfind_dot_none _ H). reflexivity. }
  split; [|split].
  - unfold file_ext_of. rewrite E1. reflexivity.
  - unfold file_ext_of. rewrite E2. reflexivity.
  - unfold ConvertOffice.output_pdf_path_of. rewrite rel_path_of_below.
    unfold splitext_root, rel. simpl app. cbn [parts anchored map_last].
    rewrite E2. reflexivity.
Qed.

(** *** Empty directories *)

Lemma discovered_of_empty_directories (walk : list walk_entry) :
  (forall entry, In entry walk -> snd entry = []) -> discovered walk = [].
Proof.
  induction walk as [|[d files] walk IH]; intros H; [reflexivity|].
  pose proof (H (d, files) (or_introl eq_refl)) as Hfiles.
  simpl in Hfiles. subst files.
  unfold discovered in *. simpl.
  apply IH. intros entry Hentry. apply H. right. exact Hentry.
Qed.

(** X11. Directories come into the output and archive trees only through
    the files in them: a walk over directories that hold no file makes no
    call and logs nothing, so empty directories are not mirrored. *)
Theorem empty_directories_leave_no_trace walk s :
  (forall entry, In entry walk -> snd entry = []) ->
  convert_office_files_recursively walk s = MkOut (Ok tt) s [].
Proof.
  intros H. rewrite run_flat, (discovered_of_empty_directories walk H).
  reflexivity.
Qed.

End Facts.

End ConvertOfficeFacts.

(** ** [upload_pdf_to_oci_bucket.py] *)

Module UploadOciFacts.

Import UploadOci PathFacts ExecFacts.

Section Facts.

Context {St : Type} (sys : System St).
Variables (bucket_name namespace : string) (folder_path : path) (config : Config).

Local Abbreviation upload_file :=
  (upload_file sys bucket_name namespace folder_path).
Local Abbreviation upload_to_oci :=
  (upload_to_oci sys bucket_name namespace folder_path config).
Local Abbreviation file_path_of d file_name :=
  (join_name (join folder_path (rel d)) file_name).
Local Abbreviation upload_loop l :=
  (for_each l (fun '(d, file_name) => upload_file d file_name)).

Ltac sys_call :=
  match goal with
  | H : client_init ?sy ?c ?s = _ |- context [client_init ?sy ?c ?s] => rewrite H
  | H : get_bucket ?sy ?n ?b ?s = _ |- context [get_bucket ?sy ?n ?b ?s] => rewrite H
  | |- context [client_init ?sy ?c ?s] =>
      destruct (client_init sy c s) as [[[]|?e] ?s] eqn:?
  | |- context [get_bucket ?sy ?n ?b ?s] =>
      destruct (get_bucket sy n b s) as [[[]|?e] ?s] eqn:?
  | |- context [open_rb ?sy ?p ?s] =>
      destruct (open_rb sy p s) as [[?file|?e] ?s] eqn:?
  | |- context [put_object ?sy ?n ?b ?k ?f ?s] =>
      destruct (put_object sy n b k f s) as [[[]|?e] ?s] eqn:?
  | |- context [decide (exn_class ?e = ?c)] =>
      destruct (decide (exn_class e = c))
  end.

Ltac unfold_script :=
  cbv [UploadOci.upload_file UploadOci.with_open print
       bind ret raise try_catch try_catch_class emit call
       result final events app].

Ltac explore := unfold_script; repeat (sys_call; unfold_script).

(** *** One file *)

(** The upload of one file: the announcement and the opening of the file,
    then, if the file opened, one [put_object] under the relative path of
    the file and the closing of the file; the exception of [open] or of
    [put_object] is the result. *)
Lemma upload_file_cases d file_name s :
  let o := upload_file d file_name s in
  let file_path := file_path_of d file_name in
  let object_name := rel (d ++ [file_name]) in
  let announce := Printed (Uploading file_path bucket_name object_name) in
  (exists e, result o = Raise e
             /\ events o = [announce; Open file_path (Raise e)])
  \/ (exists body r, result o = r
             /\ events o = [announce; Open file_path (Ok body);
                            PutObject namespace bucket_name object_name body r;
                            Close body]).
Proof.
  cbn zeta. unfold_script. rewrite relpath_below.
  explore; [right|right|left]; eauto.
Qed.

(** *** The traversal *)

Lemma upload_to_oci_flat walk s :
  upload_to_oci walk s
  = bind (call (client_init sys config) (ClientInit config)) (fun _ =>
      bind (try_catch_class ServiceError
              (bind (call (get_bucket sys namespace bucket_name)
                          (GetBucket namespace bucket_name))
                    (fun _ => ret true))
              (fun e => bind (print (BucketMissing bucket_name e))
                             (fun _ => ret false)))
           (fun bucket_ok =>
              if bucket_ok then upload_loop (discovered walk) else ret tt)) s.
Proof.
  unfold UploadOci.upload_to_oci, bind.
  destruct (call _ _ s) as [[[]|e] s1 evs1]; [|reflexivity].
  destruct (try_catch_class _ _ _ s1) as [[[]|e] s2 evs2]; [| |reflexivity].
  - assert (E : for_each walk (fun '(d, files) =>
                   for_each files (fun file_name => upload_file d file_name)) s2
                 = upload_loop (discovered walk) s2)
      by exact (for_each_nested walk upload_file s2).
    rewrite E. reflexivity.
  - reflexivity.
Qed.

(** A [put_object] that raises ends the loop: the file is closed and the
    exception leaves the loop. *)
Lemma loop_failed_put l :
  forall s pre ns b key body e post,
    events (upload_loop l s) = pre ++ PutObject ns b key body (Raise e) :: post ->
    result (upload_loop l s) = Raise e /\ post = [Close body].
Proof.
  induction l as [|[d file_name] l IH]; intros s pre ns b key body e post H.
  - destruct pre; discriminate H.
  - rewrite for_each_cons_events in H.
    destruct (upload_file_cases d file_name s) as [(e0 & Hr & He)|(h & r & Hr & He)].
    + rewrite (for_each_cons_raise (d, file_name) l
                 (fun '(d, file_name) => upload_file d file_name) s _ Hr). simpl.
      rewrite Hr, He in H. simpl in H.
      do 2 (destruct pre as [|? pre]; [discriminate H|injection H as <- H]).
      destruct pre; discriminate H.
    + destruct r as [[]|e0].
      * destruct (for_each_cons_ok (d, file_name) l
                    (fun '(d, file_name) => upload_file d file_name) s Hr)
          as (Hres & _ & _).
        cbn zeta in Hres. rewrite Hres.
        rewrite Hr, He in H. simpl in H.
        do 4 (destruct pre as [|? pre]; [discriminate H|injection H as <- H]).
        exact (IH _ _ _ _ _ _ _ _ H).
      * rewrite (for_each_cons_raise (d, file_name) l
                 (fun '(d, file_name) => upload_file d file_name) s _ Hr). simpl.
        rewrite Hr, He in H. simpl in H.
        do 2 (destruct pre as [|? pre]; [discriminate H|injection H as <- H]).
        destruct pre as [|? pre].
        -- injection H as <- <- <- <- <- <-. auto.
        -- injection H as <- H. destruct pre as [|? pre]; [discriminate H|].
           injection H as <- H. destruct pre; discriminate H.
Qed.


Ltac explore_prefix walk :=
  rewrite upload_to_oci_flat;
  generalize (upload_loop (discovered walk)); intros loop;
  cbv [print bind ret raise try_catch try_catch_class emit call
       result final events app];
  repeat (sys_call;
          cbv [print bind ret raise try_catch try_catch_class emit call
               result final events app]).

(** C7 (as amended). A [put_object] that raises is not handled per file:
    the file is closed, the exception leaves [upload_to_oci], and nothing
    more is attempted, the failed call and the closing of its file being
    the last events of the run. *)
Theorem upload_failure_aborts_traversal walk s pre ns b key body e post :
  events (upload_to_oci walk s) = pre ++ PutObject ns b key body (Raise e) :: post ->
  result (upload_to_oci walk s) = Raise e /\ post = [Close body].
Proof.
  pose proof (loop_failed_put (discovered walk)) as Hloop. revert Hloop.
  explore_prefix walk; intros Hloop H.
  - specialize (Hloop s1).
    destruct (loop s1) as [r s2 evs2]; simpl in *.
    do 2 (destruct pre as [|? pre]; [discriminate H|injection H as <- H]).
    exact (Hloop _ _ _ _ _ _ _ H).
  - do 3 (destruct pre as [|? pre]; [discriminate H|injection H as <- H]).
    destruct pre; discriminate H.
  - do 2 (destruct pre as [|? pre]; [discriminate H|injection H as <- H]).
    destruct pre; discriminate H.
  - destruct pre as [|? pre]; [discriminate H|injection H as <- H].
    destruct pre; discriminate H.
Qed.

(** *** Object names *)

Lemma loop_put_args l :
  forall s pre ns b key body r post,
    events (upload_loop l s) = pre ++ PutObject ns b key body r :: post ->
    exists d file_name pre',
      In (d, file_name) l
      /\ ns = namespace /\ b = bucket_name
      /\ key = rel (d ++ [file_name])
      /\ pre = pre' ++ [Open (file_path_of d file_name) (Ok body)].
Proof.
  induction l as [|[d file_name] l IH]; intros s pre ns b key body r post H.
  - destruct pre; discriminate H.
  - rewrite for_each_cons_events in H.
    destruct (upload_file_cases d file_name s) as [(e0 & Hr & He)|(h & r0 & Hr & He)];
      rewrite Hr, He in H; simpl in H.
    + do 2 (destruct pre as [|? pre]; [discriminate H|injection H as <- H]).
      destruct pre; discriminate H.
    + do 2 (destruct pre as [|? pre]; [discriminate H|injection H as <- H]).
      destruct pre as [|? pre].
      * injection H as <- <- <- <- <- <-.
        exists d, file_name, [Printed (Uploading (file_path_of d file_name)
                                                bucket_name (rel (d ++ [file_name])))].
        repeat split; auto. left; reflexivity.
      * injection H as <- H.
        destruct pre as [|? pre]; [discriminate H|injection H as <- H].
        destruct r0 as [[]|e0]; [|destruct pre; discriminate H].
        destruct (IH _ _ _ _ _ _ _ _ H) as (d' & f' & pre' & Hin & -> & -> & -> & ->).
        exists d', f'. eexists (_ :: _ :: _ :: _ :: pre').
        repeat split; auto. right; exact Hin.
Qed.

Lemma loop_put_keys l :
  forall s,
    result (upload_loop l s) = Ok tt ->
    put_keys (events (upload_loop l s))
    = map (fun '(d, file_name) => rel (d ++ [file_name])) l.
Proof.
  induction l as [|[d file_name] l IH]; intros s Hok; [reflexivity|].
  destruct (upload_file_cases d file_name s) as [(e0 & Hr & He)|(h & r0 & Hr & He)].
  - rewrite (for_each_cons_raise (d, file_name) l
               (fun '(d, file_name) => upload_file d file_name) s _ Hr) in Hok.
    discriminate Hok.
  - destruct r0 as [[]|e0].
    + destruct (for_each_cons_ok (d, file_name) l
                  (fun '(d, file_name) => upload_file d file_name) s Hr)
        as (Hres & _ & Hev).
      cbn zeta in Hres, Hev. rewrite Hres in Hok. rewrite Hev, He.
      simpl. rewrite (IH _ Hok). reflexivity.
    + rewrite (for_each_cons_raise (d, file_name) l
                 (fun '(d, file_name) => upload_file d file_name) s _ Hr) in Hok.
      discriminate Hok.
Qed.

(** C8. Every [put_object] of a run sends a discovered file
    [folder_path/d/file_name], opened just before, under the object name
    [d/file_name], its path relative to [folder_path]; and a run that
    passes the bucket check and returns has sent every discovered file
    under that name, in the order of the walk. *)
Theorem object_name_is_relative_path walk s :
  let o := upload_to_oci walk s in
  (forall pre ns b key body r post,
     events o = pre ++ PutObject ns b key body r :: post ->
     exists d file_name pre',
       In (d, file_name) (discovered walk)
       /\ ns = namespace /\ b = bucket_name
       /\ key = relpath (file_path_of d file_name) folder_path
       /\ key = rel (d ++ [file_name])
       /\ pre = pre' ++ [Open (file_path_of d file_name) (Ok body)])
  /\ (result o = Ok tt ->
      In (GetBucket namespace bucket_name (Ok tt)) (events o) ->
      put_keys (events o)
      = map (fun '(d, file_name) => rel (d ++ [file_name])) (discovered walk)).
Proof.
  cbn zeta. split.
  - intros pre ns b key body r post.
    pose proof (loop_put_args (discovered walk)) as Hloop. revert Hloop.
    explore_prefix walk; intros Hloop H.
    + specialize (Hloop s1).
      destruct (loop s1) as [r' s2 evs2]; simpl in *.
      do 2 (destruct pre as [|? pre]; [discriminate H|injection H as <- H]).
      destruct (Hloop _ _ _ _ _ _ _ H) as (d & f & pre' & Hin & -> & -> & -> & ->).
      exists d, f. eexists (_ :: _ :: pre').
      rewrite relpath_below. repeat split; auto.
    + do 3 (destruct pre as [|? pre]; [discriminate H|injection H as <- H]).
      destruct pre; discriminate H.
    + do 2 (destruct pre as [|? pre]; [discriminate H|injection H as <- H]).
      destruct pre; discriminate H.
    + destruct pre as [|? pre]; [discriminate H|injection H as <- H].
      destruct pre; discriminate H.
  - pose proof (loop_put_keys (discovered walk)) as Hloop. revert Hloop.
    explore_prefix walk; intros Hloop Hok Hin.
    + specialize (Hloop s1).
      destruct (loop s1) as [r' s2 evs2]; simpl in *.
      exact (Hloop Hok).
    + exfalso. simpl in Hin.
      repeat (destruct Hin as [Hin|Hin]; [discriminate Hin|]). exact Hin.
    + discriminate Hok.
    + discriminate Hok.
Qed.

(** C10. When [get_bucket] raises, no file is opened and no [put_object]
    is issued: after a [ServiceError] the function prints the message and
    returns; any other exception leaves the function at once. *)
Theorem bucket_check_failure_uploads_nothing walk s s1 e s2 :
  client_init sys config s = (Ok tt, s1) ->
  get_bucket sys namespace bucket_name s1 = (Raise e, s2) ->
  let o := upload_to_oci walk s in
  events o
  = [ClientInit config (Ok tt); GetBucket namespace bucket_name (Raise e)]
    ++ (if decide (exn_class e = ServiceError)
        then [Printed (BucketMissing bucket_name e)] else [])
  /\ result o = (if decide (exn_class e = ServiceError) then Ok tt else Raise e)
  /\ final o = s2
  /\ (forall ev, In ev (events o) -> is_upload_step ev = false)
  /\ put_keys (events o) = [].
Proof.
  intros Hinit Hbucket. cbn zeta.
  explore_prefix walk.
  - repeat split; auto. intros ev H.
    simpl in H. repeat (destruct H as [<-|H]; [reflexivity|]). destruct H.
  - repeat split; auto. intros ev H.
    simpl in H. repeat (destruct H as [<-|H]; [reflexivity|]). destruct H.
Qed.


(** ** More on [upload_pdf_to_oci_bucket.py] *)

(** *** File objects *)

Lemma closed_app (a b : list Event) :
  UploadFiles.closed (a ++ b) = UploadFiles.closed a ++ UploadFiles.closed b.
Proof. apply omap_app. Qed.

Lemma opened_app (a b : list Event) :
  UploadFiles.opened (a ++ b) = UploadFiles.opened a ++ UploadFiles.opened b.
Proof. apply omap_app. Qed.

Lemma files_closed_compositional :
  compositional (fun evs : list Event =>
                   UploadFiles.closed evs = UploadFiles.opened evs).
Proof.
  split; [reflexivity|]. intros a b Ha Hb.
  rewrite closed_app, opened_app, Ha, Hb. reflexivity.
Qed.

Lemma loop_files_closed l s :
  UploadFiles.closed (events (upload_loop l s))
  = UploadFiles.opened (events (upload_loop l s)).
Proof.
  apply (events_for_each _ _ _ _ files_closed_compositional).
  intros [d file_name] s' _.
  destruct (upload_file_cases d file_name s')
    as [(e0 & _ & ->)|(h & r0 & _ & ->)]; reflexivity.
Qed.

Lemma loop_close_after_put l :
  forall s pre file post,
    events (upload_loop l s) = pre ++ Close file :: post ->
    exists pre' ns b key r, pre = pre' ++ [PutObject ns b key file r].
Proof.
  induction l as [|[d file_name] l IH]; intros s pre file post H.
  - destruct pre; discriminate H.
  - rewrite for_each_cons_events in H.
    destruct (upload_file_cases d file_name s) as [(e0 & Hr & He)|(h & r0 & Hr & He)];
      rewrite Hr, He in H; simpl in H.
    + do 2 (destruct pre as [|? pre]; [discriminate H|injection H as <- H]).
      destruct pre; discriminate H.
    + do 3 (destruct pre as [|? pre]; [discriminate H|injection H as <- H]).
      destruct pre as [|? pre].
      * injection H as <- <-. eexists [_; _], _, _, _, _. reflexivity.
      * injection H as <- H.
        destruct r0 as [[]|e0]; [|destruct pre; discriminate H].
        destruct (IH _ _ _ _ H) as (pre' & ns & b & key & r & ->).
        eexists (_ :: _ :: _ :: _ :: pre'), ns, b, key, r. reflexivity.
Qed.

(** X12. Every file that [upload_to_oci] opens is closed, whether its
    [put_object] returned or raised: the files closed in a run are the
    files opened in it, in the same order, each right after the
    [put_object] that read it. *)
Theorem opened_files_are_closed walk s :
  let o := upload_to_oci walk s in
  UploadFiles.closed (events o) = UploadFiles.opened (events o)
  /\ (forall pre file post,
        events o = pre ++ Close file :: post ->
        exists pre' ns b key r, pre = pre' ++ [PutObject ns b key file r]).
Proof.
  cbn zeta. split.
  - pose proof (loop_files_closed (discovered walk)) as Hloop. revert Hloop.
    explore_prefix walk; intros Hloop; try reflexivity.
    specialize (Hloop s1). destruct (loop s1) as [r s2 evs2]; simpl in *.
    exact Hloop.
  - intros pre file post.
    pose proof (loop_close_after_put (discovered walk)) as Hloop. revert Hloop.
    explore_prefix walk; intros Hloop H.
    + specialize (Hloop s1).
      destruct (loop s1) as [r' s2 evs2]; simpl in *.
      do 2 (destruct pre as [|? pre]; [discriminate H|injection H as <- H]).
      destruct (Hloop _ _ _ H) as (pre' & ns & b & key & r & ->).
      eexists (_ :: _ :: pre'), ns, b, key, r. reflexivity.
    + do 3 (destruct pre as [|? pre]; [discriminate H|injection H as <- H]).
      destruct pre; discriminate H.
    + do 2 (destruct pre as [|? pre]; [discriminate H|injection H as <- H]).
      destruct pre; discriminate H.
    + destruct pre as [|? pre]; [discriminate H|injection H as <- H].
      destruct pre; discriminate H.
Qed.

(** *** A file that cannot be opened *)

Lemma loop_failed_open l :
  forall s pre file_path e post,
    events (upload_loop l s) = pre ++ Open file_path (Raise e) :: post ->
    result (upload_loop l s) = Raise e /\ post = [].
Proof.
  induction l as [|[d file_name] l IH]; intros s pre file_path e post H.
  - destruct pre; discriminate H.
  - rewrite for_each_cons_events in H.
    destruct (upload_file_cases d file_name s) as [(e0 & Hr & He)|(h & r0 & Hr & He)].
    + rewrite (for_each_cons_raise (d, file_name) l
                 (fun '(d, file_name) => upload_file d file_name) s _ Hr). simpl.
      rewrite Hr, He in H. simpl in H.
      destruct pre as [|? pre]; [discriminate H|injection H as <- H].
      destruct pre as [|? pre].
      * injection H as <- <- <-. auto.
      * injection H as <- H. destruct pre; discriminate H.
    + destruct r0 as [[]|e0].
      * destruct (for_each_cons_ok (d, file_name) l
                    (fun '(d, file_name) => upload_file d file_name) s Hr)
          as (Hres & _ & _).
        cbn zeta in Hres. rewrite Hres.
        rewrite Hr, He in H. simpl in H.
        do 4 (destruct pre as [|? pre]; [discriminate H|injection H as <- H]).
        exact (IH _ _ _ _ _ H).
      * rewrite Hr, He in H. simpl in H.
        do 4 (destruct pre as [|? pre]; [discriminate H|injection H as <- H]).
        destruct pre; discriminate H.
Qed.

(** X13. A file that cannot be opened (it vanished after the walk listed
    it, or cannot be read) ends the upload: the exception of [open]
    leaves [upload_to_oci], nothing is sent for that file, and no later
    file is attempted. *)
Theorem open_failure_aborts_upload walk s pre file_path e post :
  events (upload_to_oci walk s) = pre ++ Open file_path (Raise e) :: post ->
  result (upload_to_oci walk s) = Raise e /\ post = [].
Proof.
  pose proof (loop_failed_open (discovered walk)) as Hloop. revert Hloop.
  explore_prefix walk; intros Hloop H.
  - specialize (Hloop s1).
    destruct (loop s1) as [r s2 evs2]; simpl in *.
    do 2 (destruct pre as [|? pre]; [discriminate H|injection H as <- H]).
    exact (Hloop _ _ _ _ H).
  - do 3 (destruct pre as [|? pre]; [discriminate H|injection H as <- H]).
    destruct pre; discriminate H.
  - do 2 (destruct pre as [|? pre]; [discriminate H|injection H as <- H]).
    destruct pre; discriminate H.
  - destruct pre as [|? pre]; [discriminate H|injection H as <- H].
    destruct pre; discriminate H.
Qed.

(** *** How an upload ends *)

Lemma loop_raises_from_a_call l :
  forall s e,
    result (upload_loop l s) = Raise e ->
    exists pre,
      (exists file_path,
          events (upload_loop l s) = pre ++ [Open file_path (Raise e)])
      \/ (exists key body,
             events (upload_loop l s)
             = pre ++ [PutObject namespace bucket_name key body (Raise e);
                       Close body]).
Proof.
  induction l as [|[d file_name] l IH]; intros s e H; [discriminate H|].
  rewrite for_each_cons_events.
  destruct (upload_file_cases d file_name s) as [(e0 & Hr & He)|(h & r0 & Hr & He)].
  - rewrite (for_each_cons_raise (d, file_name) l
               (fun '(d, file_name) => upload_file d file_name) s _ Hr) in H.
    injection H as ->. rewrite Hr, He. eexists [_]. left. eexists. reflexivity.
  - destruct r0 as [[]|e0].
    + destruct (for_each_cons_ok (d, file_name) l
                  (fun '(d, file_name) => upload_file d file_name) s Hr)
        as (Hres & _ & _).
      cbn zeta in Hres. rewrite Hres in H. rewrite Hr, He.
      destruct (IH _ _ H) as (pre & [(p & ->)|(key & body & ->)]).
      * eexists (_ :: _ :: _ :: _ :: pre). left. eexists. reflexivity.
      * eexists (_ :: _ :: _ :: _ :: pre). right. eexists _, _. reflexivity.
    + rewrite (for_each_cons_raise (d, file_name) l
                 (fun '(d, file_name) => upload_file d file_name) s _ Hr) in H.
      injection H as ->. rewrite Hr, He. eexists [_; _]. right.
      eexists _, _. reflexivity.
Qed.



(** *** The arguments of the calls *)

(** The bucket calls of a run carry the namespace and the bucket name that
    [upload_to_oci] was given, and the client its configuration. *)
Lemma upload_calls_use_arguments walk s :
  Forall (fun ev =>
            match ev with
            | ClientInit c _ => c = config
            | GetBucket ns b _ => ns = namespace /\ b = bucket_name
            | PutObject ns b _ _ _ => ns = namespace /\ b = bucket_name
            | _ => True
            end)
         (events (upload_to_oci walk s)).
Proof.
  set (Q := fun ev : Event =>
              match ev with
              | ClientInit c _ => c = config
              | GetBucket ns b _ => ns = namespace /\ b = bucket_name
              | PutObject ns b _ _ _ => ns = namespace /\ b = bucket_name
              | _ => True
              end).
  assert (Hloop : forall s', Forall Q (events (upload_loop (discovered walk) s'))).
  { intros s'. apply (events_for_each _ _ _ _ (compositional_Forall Q)).
    intros [d file_name] s'' _.
    destruct (upload_file_cases d file_name s'')
      as [(e0 & _ & ->)|(h & r0 & _ & ->)]; repeat constructor. }
  revert Hloop. explore_prefix walk; intros Hloop.
  - specialize (Hloop s1). destruct (loop s1) as [r s2 evs2]; simpl in *.
    repeat (constructor; [simpl; auto|]). exact Hloop.
  - repeat constructor.
  - repeat constructor.
  - repeat constructor.
Qed.

End Facts.

End UploadOciFacts.

(** ** The simulated file system *)

Module SimFSFacts.

Import SimFS.

(** [os.makedirs] makes every directory on the way and touches no file. *)
Lemma sim_makedirs_creates (p : path) (fs fs' : FS) :
  sim_makedirs p fs = (Ok tt, fs') ->
  files fs' = files fs
  /\ (forall q, In q (ancestors p) -> is_dir fs' q = true)
  /\ (forall q, is_dir fs q = true -> is_dir fs' q = true)
  /\ (forall q, is_dir fs' q = true -> is_dir fs q = true \/ In q (ancestors p)).
Proof.
  unfold sim_makedirs. destruct (existsb _ _); [discriminate|].
  intros [= <-]. simpl. split; [reflexivity|]. unfold is_dir; simpl.
  split; [|split].
  - intros q Hq. apply orb_true_iff. right. apply bool_decide_eq_true.
    apply elem_of_union_r. apply elem_of_list_to_set. apply list_elem_of_In, Hq.
  - intros q Hq. apply orb_true_iff in Hq as [Hq|Hq]; apply orb_true_iff; auto.
    right. apply bool_decide_eq_true. apply bool_decide_eq_true in Hq.
    apply elem_of_union_l, Hq.
  - intros q Hq. apply orb_true_iff in Hq as [Hq|Hq].
    + left. apply orb_true_iff. auto.
    + apply bool_decide_eq_true, elem_of_union in Hq as [Hq|Hq].
      * left. apply orb_true_iff. right. apply bool_decide_eq_true, Hq.
      * right. apply list_elem_of_In. apply elem_of_list_to_set in Hq. exact Hq.
Qed.

(** [shutil.move] onto a destination that is not a directory: the content
    is at the destination and no longer at the source. *)
Lemma sim_move_places (src dst : path) (fs fs' : FS) :
  sim_move src dst fs = (Ok tt, fs') ->
  is_dir fs dst = false ->
  is_Some (files fs !! src)
  /\ files fs' !! dst = files fs !! src
  /\ (src <> dst -> files fs' !! src = None)
  /\ is_dir fs (dirname dst) = true.
Proof.
  unfold sim_move. intros H Hdir. rewrite Hdir in H. simpl in H.
  destruct (files fs !! src) as [content|] eqn:Hsrc; [|discriminate].
  destruct (is_dir fs (dirname dst)) eqn:Hparent; [|discriminate].
  simpl in H. injection H as <-. simpl.
  split; [eauto|]. split; [apply lookup_insert_eq|]. split; [|reflexivity].
  intros Hne. rewrite lookup_insert_ne by congruence. apply lookup_delete_eq.
Qed.

Lemma ancestors_shorter (p q : path) :
  In q (ancestors p) -> (List.length (parts q) <= List.length (parts p))%nat.
Proof.
  unfold ancestors. intros H. apply in_map_iff in H as (n & <- & _).
  simpl. rewrite length_take. lia.
Qed.

Lemma not_own_ancestor (p : path) :
  parts p <> [] -> ~ In p (ancestors (dirname p)).
Proof.
  intros Hne H. apply ancestors_shorter in H. unfold dirname in H. simpl in H.
  destruct (parts p) as [|x l] using rev_ind; [congruence|].
  rewrite removelast_last, length_app in H. simpl in H. lia.
Qed.

(** A file that [move_to_processed] reports as moved is at the archive
    root joined with its relative path, with every directory above it in
    place, and no longer at its source. *)
Lemma archived_file_in_place (corrupt : gset path)
    (processed_base_folder file_path rel_path : path) (fs : FS) :
  let o := ConvertOffice.move_to_processed (system corrupt) processed_base_folder
             file_path rel_path fs in
  let processed_path := join processed_base_folder rel_path in
  In (ConvertOffice.Log ConvertOffice.info (ConvertOffice.MovedToProcessed rel_path))
     (events o) ->
  is_dir fs processed_path = false ->
  is_Some (files fs !! file_path)
  /\ files (final o) !! processed_path = files fs !! file_path
  /\ (file_path <> processed_path -> files (final o) !! file_path = None)
  /\ (forall q, In q (ancestors (dirname processed_path)) -> is_dir (final o) q = true).
Proof.
  cbn zeta.
  cbv [ConvertOffice.move_to_processed ConvertOffice.makedirs ConvertOffice.move
       ConvertOffice.print_info ConvertOffice.print_error
       bind ret try_catch emit call result final events app
       system ConvertOffice.os_makedirs ConvertOffice.shutil_move].
  destruct (sim_makedirs _ fs) as [[[]|e] fs1] eqn:Hmk; simpl.
  - destruct (sim_move _ _ fs1) as [[[]|e] fs2] eqn:Hmv; simpl.
    + intros _ Hdir.
      destruct (sim_makedirs_creates _ _ _ Hmk) as (Hfiles & Hmade & _ & Hback).
      assert (Hdir1 : is_dir fs1 (join processed_base_folder rel_path) = false).
      { destruct (is_dir fs1 _) eqn:E; [|reflexivity].
        destruct (Hback _ E) as [H|H]; [congruence|].
        exfalso. revert H. apply not_own_ancestor.
        intros Hnil. unfold is_dir in Hdir. rewrite Hnil in Hdir.
        discriminate Hdir. }
      destruct (sim_move_places _ _ _ _ Hmv Hdir1) as (Hsome & Hdst & Hsrc & _).
      rewrite Hfiles in *. repeat split; auto.
      intros q Hq. 
      assert (Hd : dirs fs2 = dirs fs1).
      { unfold sim_move in Hmv. rewrite Hdir1 in Hmv. simpl in Hmv.
        destruct (files fs1 !! file_path); [|discriminate].
        destruct (negb _); [discriminate|]. injection Hmv as <-. reflexivity. }
      specialize (Hmade q Hq). unfold is_dir in *. rewrite Hd. exact Hmade.
    + intros H. exfalso.
      repeat (destruct H as [H|H]; [discriminate H|]). exact H.
  - intros H. exfalso.
    repeat (destruct H as [H|H]; [discriminate H|]). exact H.
Qed.

(** A handler leaves the file system as it found it when the source is
    corrupt: the source is retained. *)
Lemma corrupt_source_untouched (corrupt : gset path) (processed_base_folder : path)
    (office : ConvertOffice.App) (input_path output_path rel_path : path) (fs : FS) :
  input_path ∈ corrupt ->
  final (ConvertOffice.handler (system corrupt) processed_base_folder office
           input_path output_path rel_path fs) = fs.
Proof.
  intros H.
  assert (E : forall a fs0, sim_export corrupt a input_path output_path fs0
              = (Raise (oserror "com_error: the file is corrupt"), fs0)).
  { intros a fs0. unfold sim_export. rewrite bool_decide_eq_true_2 by exact H.
    reflexivity. }
  destruct office;
    cbv [ConvertOffice.handler ConvertOffice.convert_word_to_pdf
         ConvertOffice.convert_excel_to_pdf ConvertOffice.convert_powerpoint_to_pdf
         ConvertOffice.word_loop ConvertOffice.word_attempt
         ConvertOffice.export ConvertOffice.print_info ConvertOffice.print_error
         ConvertOffice.print_success seq
         bind ret raise try_catch emit call result final events List.app
         system ConvertOffice.office_export Nat.ltb Nat.leb Nat.add];
    rewrite ?E; reflexivity.
Qed.

(** *** What a file that is not moved goes through *)

Lemma frame_makedirs (p : path) (fs fs' : FS) (r : Result unit) :
  sim_makedirs p fs = (r, fs') -> files fs' = files fs.
Proof.
  unfold sim_makedirs.
  destruct (existsb _ _); intros H; simpl in H; injection H as <- <-; reflexivity.
Qed.

Lemma frame_move_raise (src dst : path) (fs fs' : FS) (e : Exn) :
  sim_move src dst fs = (Raise e, fs') -> files fs' = files fs.
Proof.
  unfold sim_move.
  destruct (files fs !! src); [|intros H; simpl in H; injection H as <- <-; reflexivity].
  destruct (_ && _); [intros H; simpl in H; injection H as <- <-; reflexivity|].
  destruct (negb _); intros H; [injection H as <- <-; reflexivity|discriminate H].
Qed.

Lemma frame_copy (src dst : path) (fs fs' : FS) (r : Result unit) :
  sim_copy src dst fs = (r, fs') -> files fs' !! src = files fs !! src.
Proof.
  unfold sim_copy. cbv zeta.
  set (real_dst := if is_dir fs dst then join_name dst (basename src) else dst).
  clearbody real_dst.
  destruct (files fs !! src) eqn:E;
    [|intros H; injection H as <- <-; exact E].
  destruct (bool_decide (src = real_dst)) eqn:Hsame;
    [intros H; injection H as <- <-; exact E|].
  apply bool_decide_eq_false in Hsame.
  destruct (is_dir fs real_dst);
    [intros H; injection H as <- <-; exact E|].
  destruct (negb (is_dir fs (dirname real_dst)));
    intros H; injection H as <- <-; [exact E|].
  simpl. rewrite lookup_insert_ne by congruence. exact E.
Qed.

Lemma frame_export (corrupt : gset path) (office : ConvertOffice.App)
    (src dst : path) (fs fs' : FS) (r : Result unit) :
  sim_export corrupt office src dst fs = (r, fs') ->
  (dst = src -> files fs !! src = None) ->
  files fs' !! src = files fs !! src.
Proof.
  unfold sim_export. intros H Hp. revert H.
  destruct (bool_decide _); [intros H; simpl in H; injection H as <- <-; reflexivity|].
  assert (Hconv : forall (x : Result unit * FS),
    match files fs !! src with
    | Some content =>
        if negb (is_dir fs (dirname dst))
        then (Raise (oserror "com_error: cannot save"), fs)
        else (Ok tt, MkFS (<[dst := "PDF of " +:+ content]> (files fs))
                          (dirs fs) (flaky fs))
    | None => (Raise (oserror "com_error: file not found"), fs)
    end = x -> files (snd x) !! src = files fs !! src).
  { intros x. destruct (files fs !! src) eqn:E; [|intros <-; exact E].
    destruct (negb _); intros <-; [exact E|].
    simpl. rewrite lookup_insert_ne; [exact E|].
    intros Heq. specialize (Hp Heq). congruence. }
  destruct (flaky fs !! src) as [[|n]|]; intros H.
  - exact (Hconv _ H).
  - injection H as <- <-. reflexivity.
  - exact (Hconv _ H).
Qed.

Lemma exists_false_no_file (p : path) (fs : FS) :
  sim_exists p fs = false -> files fs !! p = None.
Proof.
  unfold sim_exists, is_file. destruct (files fs !! p); [discriminate|reflexivity].
Qed.

Section OneFile.

Variables (corrupt : gset path).
Variables output_base_folder processed_base_folder input_folder : path.

Ltac sim_unfold :=
  cbv [ConvertOffice.process_file ConvertOffice.handler
       ConvertOffice.convert_word_to_pdf ConvertOffice.convert_excel_to_pdf
       ConvertOffice.convert_powerpoint_to_pdf ConvertOffice.word_loop
       ConvertOffice.word_attempt ConvertOffice.copy_to_output
       ConvertOffice.move_to_processed ConvertOffice.print_info
       ConvertOffice.print_error ConvertOffice.print_success
       ConvertOffice.makedirs ConvertOffice.path_exists ConvertOffice.move
       ConvertOffice.copy ConvertOffice.export
       system ConvertOffice.os_makedirs ConvertOffice.os_path_exists
       ConvertOffice.shutil_move ConvertOffice.shutil_copy
       ConvertOffice.office_export
       bind ret raise try_catch emit call query seq
       Nat.ltb Nat.leb Nat.add result final events List.app].

Ltac sim_call :=
  match goal with
  | |- context [sim_makedirs ?p ?s] =>
      destruct (sim_makedirs p s) as [[[]|?e] ?fs] eqn:?
  | |- context [sim_exists ?p ?s] =>
      destruct (sim_exists p s) eqn:?
  | |- context [ConvertOffice.classify ?x] =>
      destruct (ConvertOffice.classify x) as [[]|] eqn:?
  | |- context [sim_export ?c ?k ?a ?b ?s] =>
      destruct (sim_export c k a b s) as [[[]|?e] ?fs] eqn:?
  | |- context [sim_move ?a ?b ?s] =>
      destruct (sim_move a b s) as [[[]|?e] ?fs] eqn:?
  | |- context [sim_copy ?a ?b ?s] =>
      destruct (sim_copy a b s) as [[[]|?e] ?fs] eqn:?
  end.

Ltac sim_explore := sim_unfold; repeat (sim_call; sim_unfold).

(** Carry the content found at [src] from one state to the next along the
    calls of the run. *)
Ltac carry src :=
  repeat match goal with
  | Hc : files ?a !! src = ?v, H : sim_makedirs _ ?a = (_, ?b) |- _ =>
      let Hn := fresh "Hc" in
      assert (Hn : files b !! src = v)
        by (rewrite (frame_makedirs _ _ _ _ H); exact Hc);
      clear H Hc
  | Hc : files ?a !! src = ?v, H : sim_move _ _ ?a = (Raise _, ?b) |- _ =>
      let Hn := fresh "Hc" in
      assert (Hn : files b !! src = v)
        by (rewrite (frame_move_raise _ _ _ _ _ H); exact Hc);
      clear H Hc
  | Hc : files ?a !! src = ?v, H : sim_copy src _ ?a = (_, ?b) |- _ =>
      let Hn := fresh "Hc" in
      assert (Hn : files b !! src = v)
        by (rewrite (frame_copy _ _ _ _ _ H); exact Hc);
      clear H Hc
  | Hc : files ?a !! src = ?v, H : sim_export _ _ src ?dst ?a = (_, ?b),
    Hp : ?dst = src -> ?v = None |- _ =>
      let Hn := fresh "Hc" in
      assert (Hn : files b !! src = v)
        by (rewrite (frame_export _ _ _ _ _ _ _ H); [exact Hc|];
            intros Heq; rewrite Hc; exact (Hp Heq));
      clear H Hc
  end.

(** A discovered file on which no [shutil.move] returned is, after its
    processing, where and what it was before. *)
Lemma retained_file_stays (d : list string) (filename : string) (fs : FS) :
  let o := ConvertOffice.process_file (system corrupt) output_base_folder
             processed_base_folder input_folder d filename fs in
  let file_path := ConvertOffice.file_path_of input_folder d filename in
  (forall dst, ~ In (ConvertOffice.Move file_path dst (Ok tt)) (events o)) ->
  files (final o) !! file_path = files fs !! file_path.
Proof.
  cbn zeta.
  remember (files fs !! ConvertOffice.file_path_of input_folder d filename)
    as v eqn:Hc.
  symmetry in Hc.
  sim_explore; intros Hno.
  all: try solve [exfalso; eapply Hno; simpl;
                  repeat first [left; reflexivity | right]].
  all: try match goal with
       | Hmk : sim_makedirs _ ?fs0 = (_, ?fs1),
         Hex : sim_exists ?out ?fs1 = false,
         Hc0 : files ?fs0 !! ?src = ?v |- _ =>
           assert (Hp : out = src -> v = None)
             by (intros Heq; apply exists_false_no_file in Hex;
                 rewrite (frame_makedirs _ _ _ _ Hmk), Heq, Hc0 in Hex; exact Hex)
       end.
  all: match goal with
       | |- files _ !! ?src = _ => carry src
       end.
  all: assumption.
Qed.

End OneFile.

End SimFSFacts.

(** ** Where archived files lie *)

Module ArchiveFacts.

Import SimFS SimFSFacts PathFacts.

(** [shutil.move] onto a destination that is a directory: the content is
    inside that directory, under the name of the source. *)
Lemma sim_move_into (src dst : path) (fs fs' : FS) :
  sim_move src dst fs = (Ok tt, fs') ->
  is_dir fs dst = true ->
  is_Some (files fs !! src)
  /\ files fs' !! join_name dst (basename src) = files fs !! src
  /\ files fs' !! src = None.
Proof.
  unfold sim_move. intros H Hdir. rewrite Hdir in H. simpl in H.
  destruct (files fs !! src) as [content|] eqn:Hsrc; [|discriminate].
  destruct (sim_exists _ fs) eqn:Hex; [discriminate|].
  destruct (negb _); [discriminate|].
  injection H as <-. simpl.
  split; [eauto|]. split; [apply lookup_insert_eq|].
  rewrite lookup_insert_ne; [apply lookup_delete_eq|].
  intros E. rewrite E in Hex. unfold sim_exists, is_file in Hex.
  rewrite Hsrc in Hex. discriminate Hex.
Qed.

Lemma basename_file_path (input_folder : path) d filename :
  basename (ConvertOffice.file_path_of input_folder d filename) = filename.
Proof.
  unfold ConvertOffice.file_path_of, join_name, basename, join. simpl.
  apply last_last.
Qed.

(** A directory that [os.makedirs] was asked for is there when the call
    returns. *)
Lemma made_directory (p : path) (fs fs' : FS) :
  sim_makedirs p fs = (Ok tt, fs') -> is_dir fs' p = true.
Proof.
  intros H. destruct (parts p) as [|x l] eqn:E.
  - unfold is_dir. rewrite E. reflexivity.
  - destruct (sim_makedirs_creates _ _ _ H) as (_ & Hmade & _).
    apply Hmade. unfold ancestors.
    apply in_map_iff. exists (List.length (parts p)). split.
    + rewrite firstn_all. destruct p; reflexivity.
    + apply in_seq. rewrite E. simpl. lia.
Qed.

Section Archive.

Variable corrupt : gset path.
Variables output_base_folder processed_base_folder input_folder : path.

Local Abbreviation sys := (system corrupt).
Local Abbreviation run :=
  (ConvertOffice.convert_office_files_recursively
     sys output_base_folder processed_base_folder input_folder).
Local Abbreviation process_file :=
  (ConvertOffice.process_file
     sys output_base_folder processed_base_folder input_folder).
Local Abbreviation file_path_of := (ConvertOffice.file_path_of input_folder).
Local Abbreviation output_pdf_path_of :=
  (ConvertOffice.output_pdf_path_of output_base_folder input_folder).



End Archive.

End ArchiveFacts.

(** ** The scripts on concrete trees *)

Module ScenarioFacts.

Import Scenario.

Ltac in_events H :=
  repeat (destruct H as [H|H];
          [first [discriminate H | injection H as <- <- <-]|]);
  try contradiction.

(** C1 (the code at the failing input). With relative roots [output] and
    [archive], the run over the scenario tree copies the unsupported file
    [readme.txt] to [archive/output/readme.pdf]: [copy_to_output] joins
    its argument to [processed_base_folder], and the argument is the PDF
    path under the output root.  Nothing is written at
    [output/readme.txt]; the source is then moved to
    [archive/readme.txt]. *)
Theorem unsupported_file_copy_misses_output_tree :
  let o := run healthy walk tree in
  result o = Ok tt
  /\ (forall src dst r, In (ConvertOffice.Copy src dst r) (events o) ->
        src = readme /\ dst = rel ["archive"; "output"; "readme.pdf"] /\ r = Ok tt)
  /\ In (ConvertOffice.Copy readme (rel ["archive"; "output"; "readme.pdf"]) (Ok tt))
        (events o)
  /\ SimFS.sim_exists (rel ["output"; "readme.txt"]) (final o) = false
  /\ SimFS.sim_exists (rel ["output"; "readme.pdf"]) (final o) = false
  /\ SimFS.files (final o) !! rel ["archive"; "output"; "readme.pdf"] = Some "readme"
  /\ SimFS.files (final o) !! rel ["archive"; "readme.txt"] = Some "readme"
  /\ SimFS.files (final o) !! readme = None.
Proof.
  cbn zeta. split; [vm_compute; reflexivity|]. split.
  - intros src dst r H. vm_compute in H. in_events H. auto.
  - vm_compute. repeat split; auto 10.
Qed.

(** With absolute roots the join in [copy_to_output] keeps the PDF path
    under the output root: the copy of [readme.txt] is
    [/output/readme.pdf]. *)
Example unsupported_file_copy_absolute_roots :
  let o := ConvertOffice.process_file healthy (Mk true ["output"]) (Mk true ["archive"])
             (Mk true ["in"]) [] "readme.txt"
             (SimFS.mkfs [(Mk true ["in"; "readme.txt"], "readme")]) in
  ConvertOffice.moves (events o)
  = [(Mk true ["in"; "readme.txt"], Mk true ["archive"; "readme.txt"], Ok tt)]
  /\ SimFS.files (final o) !! Mk true ["output"; "readme.pdf"] = Some "readme"
  /\ SimFS.sim_exists (Mk true ["output"; "readme.txt"]) (final o) = false.
Proof. vm_compute. auto. Qed.

(** The second scenario of the specification: the handler of
    [a/report.docx] fails at every attempt. *)
Example failing_report_is_retained :
  let o := run report_corrupt walk tree in
  result o = Ok tt
  /\ SimFS.sim_exists (rel ["output"; "a"; "report.pdf"]) (final o) = false
  /\ SimFS.sim_exists (rel ["archive"; "a"; "report.docx"]) (final o) = false
  /\ SimFS.files (final o) !! report = Some "report"
  /\ ConvertOffice.terminal_state report (events o) = ConvertOffice.Retained
  /\ ConvertOffice.terminal_state data (events o) = ConvertOffice.Archived
  /\ SimFS.files (final o) !! rel ["archive"; "a"; "b"; "data.xlsx"] = Some "data".
Proof. vm_compute. auto 10. Qed.

(** The first scenario of the specification, all applications healthy:
    both documents are converted under the output root and all three
    sources end under the archive root; the input tree is empty. *)
Example healthy_run :
  let o := run healthy walk tree in
  ConvertOffice.exports (events o)
  = [(ConvertOffice.Word, report, rel ["output"; "a"; "report.pdf"]);
     (ConvertOffice.Excel, data, rel ["output"; "a"; "b"; "data.pdf"])]
  /\ SimFS.files (final o) !! rel ["output"; "a"; "report.pdf"] = Some "PDF of report"
  /\ SimFS.files (final o) !! rel ["output"; "a"; "b"; "data.pdf"] = Some "PDF of data"
  /\ SimFS.files (final o) !! rel ["archive"; "a"; "report.docx"] = Some "report"
  /\ SimFS.files (final o) !! rel ["archive"; "a"; "b"; "data.xlsx"] = Some "data"
  /\ SimFS.files (final o) !! rel ["archive"; "readme.txt"] = Some "readme"
  /\ SimFS.files (final o) !! report = None
  /\ SimFS.files (final o) !! data = None
  /\ SimFS.files (final o) !! readme = None.
Proof. vm_compute. auto 10. Qed.

(** A run after an interrupted one that had written [output/a/report.pdf]:
    the report is archived without a second conversion. *)
Example rerun_after_partial_run :
  let o := run healthy walk tree_after_partial_run in
  ConvertOffice.exports (events o)
  = [(ConvertOffice.Excel, data, rel ["output"; "a"; "b"; "data.pdf"])]
  /\ ConvertOffice.terminal_state report (events o) = ConvertOffice.Archived
  /\ SimFS.files (final o) !! rel ["archive"; "a"; "report.docx"] = Some "report"
  /\ SimFS.files (final o) !! rel ["output"; "a"; "report.pdf"] = Some "PDF of report".
Proof. vm_compute. auto. Qed.

(** A flaky application: the first two attempts on the report fail, the
    third converts it. *)
Example word_succeeds_at_third_attempt :
  let fs := SimFS.MkFS (SimFS.files tree) (SimFS.dirs tree) {[report := 2%nat]} in
  let o := run healthy walk fs in
  ConvertOffice.exports (events o)
  = [(ConvertOffice.Word, report, rel ["output"; "a"; "report.pdf"]);
     (ConvertOffice.Word, report, rel ["output"; "a"; "report.pdf"]);
     (ConvertOffice.Word, report, rel ["output"; "a"; "report.pdf"]);
     (ConvertOffice.Excel, data, rel ["output"; "a"; "b"; "data.pdf"])]
  /\ ConvertOffice.terminal_state report (events o) = ConvertOffice.Archived.
Proof. vm_compute. auto. Qed.

(** Every export of the report fails in [report_corrupt]. *)
Lemma report_is_corrupt dst :
  ConvertOffice.persistently_failing report_corrupt ConvertOffice.Word report dst.
Proof.
  intros s. exists (SimFS.oserror "com_error: the file is corrupt"), s.
  reflexivity.
Defined.




(** Three attempts on the corrupt report. *)
Lemma retry_bounds_witness :
  ConvertOffice.exports
    (events (ConvertOffice.convert_word_to_pdf report_corrupt processed_base_folder
               report (rel ["output"; "a"; "report.pdf"])
               (rel ["a"; "report.docx"]) tree))
  = replicate 3 (ConvertOffice.Word, report, rel ["output"; "a"; "report.pdf"]).
Proof.
  refine (proj1 (ConvertOfficeFacts.retry_bounds report_corrupt processed_base_folder
                   report (rel ["output"; "a"; "report.pdf"])
                   (rel ["a"; "report.docx"]) tree _)).
  intros app s. exists (SimFS.oserror "com_error: the file is corrupt"), s.
  reflexivity.
Defined.

(** The report of the healthy run is [Archived] by its one move. *)
Lemma one_terminal_state_witness :
  ConvertOffice.terminal_state report (events (run healthy walk tree))
  = ConvertOffice.Archived
  <-> ConvertOffice.moves_from report (events (run healthy walk tree))
      = [(report, rel ["archive"; "a"; "report.docx"], Ok tt)].
Proof.
  refine (proj1 (proj2 (ConvertOfficeFacts.one_terminal_state
                          healthy output_base_folder processed_base_folder
                          input_folder walk tree ["a"] "report.docx" _ _))).
  - apply (bool_decide_unpack (NoDup (ConvertOffice.discovered walk))).
    vm_compute. exact I.
  - vm_compute. auto.
Defined.



(** In the healthy run the report is at its archive path right after its
    move, no directory being there before. *)
Example report_lies_at_its_archive_path :
  let evs := events (run healthy walk tree) in
  SimFS.files (ConvertOffice.replay healthy (firstn 15 evs) tree)
    !! rel ["archive"; "a"; "report.docx"] = Some "report"
  /\ SimFS.is_dir (ConvertOffice.replay healthy (firstn 14 evs) tree)
                  (rel ["archive"; "a"; "report.docx"]) = false.
Proof. vm_compute. split; reflexivity. Qed.

(** C7 (counterexample). The service rejects [a.pdf], the first of two
    files: the exception leaves [upload_to_oci], and the second file,
    [sub/b.pdf], is neither announced, opened nor sent. *)
Lemma upload_failure_stops_the_walk :
  let o := upload rejecting_a cloud in
  result o = Raise (MkExn ServiceError "TooManyRequests")
  /\ events o
     = [UploadOci.ClientInit config (Ok tt);
        UploadOci.GetBucket "ns" "bucket" (Ok tt);
        UploadOci.Printed (UploadOci.Uploading (rel ["pdfs"; "a.pdf"]) "bucket"
                                               (rel ["a.pdf"]));
        UploadOci.Open (rel ["pdfs"; "a.pdf"]) (Ok 0%nat);
        UploadOci.PutObject "ns" "bucket" (rel ["a.pdf"]) 0%nat
                            (Raise (MkExn ServiceError "TooManyRequests"));
        UploadOci.Close 0%nat]
  /\ (forall r, ~ In (UploadOci.Open (rel ["pdfs"; "sub"; "b.pdf"]) r) (events o))
  /\ UploadOci.put_keys (events o) = [rel ["a.pdf"]]
  /\ SimCloud.objects (final o) !! rel ["sub"; "b.pdf"] = None.
Proof.
  cbn zeta. split; [vm_compute; reflexivity|].
  split; [vm_compute; reflexivity|]. split.
  - intros r H. vm_compute in H.
    repeat (destruct H as [H|H]; [discriminate H|]). exact H.
  - vm_compute. auto.
Qed.

(** The rejected [a.pdf]: the failed call is the fifth event. *)
Lemma upload_failure_aborts_traversal_witness :
  result (upload rejecting_a cloud) = Raise (MkExn ServiceError "TooManyRequests")
  /\ skipn 5 (events (upload rejecting_a cloud)) = [UploadOci.Close 0%nat].
Proof.
  refine (UploadOciFacts.upload_failure_aborts_traversal
            rejecting_a "bucket" "ns" folder_path config upload_walk cloud
            (firstn 4 (events (upload rejecting_a cloud)))
            "ns" "bucket" (rel ["a.pdf"]) 0%nat
            (MkExn ServiceError "TooManyRequests")
            (skipn 5 (events (upload rejecting_a cloud))) _).
  vm_compute. reflexivity.
Defined.

(** Both files are sent under their relative paths. *)
Lemma object_name_is_relative_path_witness :
  UploadOci.put_keys (events (upload accepting cloud))
  = [rel ["a.pdf"]; rel ["sub"; "b.pdf"]].
Proof.
  refine (proj2 (UploadOciFacts.object_name_is_relative_path
                   accepting "bucket" "ns" folder_path config upload_walk cloud)
                _ _).
  - vm_compute. reflexivity.
  - vm_compute. auto.
Defined.

(** No bucket: the function returns and sends nothing. *)
Lemma bucket_check_failure_uploads_nothing_witness :
  result (upload accepting cloud_without_bucket) = Ok tt
  /\ UploadOci.put_keys (events (upload accepting cloud_without_bucket)) = [].
Proof.
  refine (let H := UploadOciFacts.bucket_check_failure_uploads_nothing
                     accepting "bucket" "ns" folder_path config upload_walk
                     cloud_without_bucket cloud_without_bucket
                     (MkExn ServiceError "BucketNotFound") cloud_without_bucket
                     _ _ in
          conj (proj1 (proj2 H)) (proj2 (proj2 (proj2 (proj2 H))))).
  - reflexivity.
  - reflexivity.
Defined.

End ScenarioFacts.

(** ** [force_quit_word] *)

Module ForceQuitFacts.

Import ForceQuit ExecFacts.

Section Facts.

Context {St : Type} (sys : System St).

Local Abbreviation quit_if_word := (quit_if_word sys).
Local Abbreviation force_quit_word := (force_quit_word sys).

Lemma terminated_app (a b : list Event) :
  terminated (a ++ b) = terminated a ++ terminated b.
Proof. apply omap_app. Qed.

(** One process: what was terminated, and whether the loop goes on. *)
Lemma quit_if_word_cases process s :
  let o := quit_if_word process s in
  (name process = None /\ result o = Raise attribute_error /\ events o = [])
  \/ (exists process_name,
         name process = Some process_name /\ is_word process_name = false
         /\ result o = Ok tt /\ events o = [])
  \/ (exists process_name r,
         name process = Some process_name /\ is_word process_name = true
         /\ result o = r
         /\ events o = Terminated process r
                       :: match r with Ok _ => [TerminateWordLogged] | Raise _ => [] end).
Proof.
  cbn zeta. unfold ForceQuit.quit_if_word.
  destruct (name process) as [process_name|]; [|left; auto].
  destruct (is_word process_name) eqn:Hw; right; [right|left; eauto].
  exists process_name.
  cbv [bind call emit result events].
  destruct (terminate sys process s) as [[[]|e] s']; eexists; auto.
Qed.

Lemma loop_terminates_word_only l :
  forall s,
    let o := for_each l quit_if_word s in
    exists n, terminated (events o) = take n (word_processes l)
              /\ (result o = Ok tt ->
                  terminated (events o) = word_processes l
                  /\ (forall process, In process l -> name process <> None)).
Proof.
  induction l as [|process l IH]; intros s; cbn zeta.
  - exists 0%nat. simpl. auto.
  - destruct (IH (final (quit_if_word process s))) as (n & Hpre & Hall).
    cbn zeta in Hpre, Hall. clear IH.
    destruct (quit_if_word_cases process s)
      as [(Hn & Hr & He)|[(pn & Hn & Hw & Hr & He)|(pn & r & Hn & Hw & Hr & He)]];
      cbn zeta in Hr, He.
    + exists 0%nat.
      rewrite (for_each_cons_raise process l quit_if_word s _ Hr), He.
      simpl. split; [reflexivity|discriminate].
    + exists n.
      destruct (for_each_cons_ok process l quit_if_word s Hr) as (Hres & _ & Hev).
      cbn zeta in Hres, Hev. rewrite Hres, Hev, He. simpl.
      unfold word_processes. simpl. rewrite Hn, Hw.
      split; [exact Hpre|].
      intros Hok. destruct (Hall Hok) as (Hterm & Hnames).
      split; [exact Hterm|].
      intros p [<-|Hp]; [congruence|auto].
    + destruct r as [[]|e].
      * exists (S n).
        destruct (for_each_cons_ok process l quit_if_word s Hr) as (Hres & _ & Hev).
        cbn zeta in Hres, Hev. rewrite Hres, Hev, He. simpl.
        unfold word_processes. simpl. rewrite Hn, Hw. simpl.
        split; [f_equal; exact Hpre|].
        intros Hok. destruct (Hall Hok) as (Hterm & Hnames).
        split; [f_equal; exact Hterm|].
        intros p [<-|Hp]; [congruence|auto].
      * exists 1%nat.
        rewrite (for_each_cons_raise process l quit_if_word s _ Hr), He.
        unfold word_processes. simpl. rewrite Hn, Hw. simpl. rewrite take_0.
        split; [reflexivity|discriminate].
Qed.

(** X15. [force_quit_word] calls [terminate] on Word processes only, in
    the order of the process list: the terminated processes are a prefix
    of the processes named [winword.exe] up to case; when the function
    returns they are all of them, and every process had a name. *)
Theorem only_word_is_terminated s :
  let o := force_quit_word s in
  let processes := process_iter sys s in
  (exists n, terminated (events o) = take n (word_processes processes))
  /\ (forall process, In process (terminated (events o)) ->
        In process processes
        /\ exists process_name,
             name process = Some process_name
             /\ lower process_name = "winword.exe")
  /\ (result o = Ok tt ->
      terminated (events o) = word_processes processes
      /\ forall process, In process processes -> name process <> None).
Proof.
  cbn zeta.
  pose proof (loop_terminates_word_only (process_iter sys s) s) as Hloop.
  cbn zeta in Hloop.
  cbv [ForceQuit.force_quit_word bind query result final events].
  destruct (for_each (process_iter sys s) quit_if_word s) as [r s' evs];
    simpl in *.
  destruct Hloop as (n & Hpre & Hall).
  split; [exists n; exact Hpre|]. split; [|exact Hall].
  intros process Hin. rewrite Hpre in Hin.
  apply list_elem_of_In, elem_of_take in Hin as (i & Hi & _).
  apply list_elem_of_lookup_2, list_elem_of_In in Hi.
  unfold word_processes in Hi. apply filter_In in Hi as [Hp Hw].
  split; [exact Hp|].
  destruct (name process) as [pn|]; [|discriminate Hw].
  exists pn. split; [reflexivity|].
  apply bool_decide_eq_true in Hw. exact Hw.
Qed.

(** X16. A process whose name [psutil] could not read stops the sweep:
    [None.lower()] raises, outside any [try], and the Word processes after
    it in the list keep running. *)
Theorem unnamed_process_stops_the_sweep before process after s :
  name process = None ->
  process_iter sys s = before ++ process :: after ->
  (forall p, In p before -> name p <> None) ->
  (forall p s', In p before -> exists s'', terminate sys p s' = (Ok tt, s'')) ->
  let o := force_quit_word s in
  result o = Raise attribute_error
  /\ terminated (events o) = word_processes before.
Proof.
  intros Hname Hiter Hnamed Hterm. cbn zeta.
  cbv [ForceQuit.force_quit_word bind query result final events].
  rewrite Hiter. clear Hiter.
  assert (Hloop : forall s0,
    result (for_each (before ++ process :: after) quit_if_word s0)
    = Raise attribute_error
    /\ terminated (events (for_each (before ++ process :: after) quit_if_word s0))
       = word_processes before).
  { induction before as [|p before IH]; intros s0.
    - simpl app.
      assert (Hr : result (quit_if_word process s0) = Raise attribute_error).
      { unfold ForceQuit.quit_if_word. rewrite Hname. reflexivity. }
      rewrite (for_each_cons_raise process after quit_if_word s0 _ Hr).
      unfold ForceQuit.quit_if_word. rewrite Hname. auto.
    - simpl app.
      assert (IH' := IH (fun q Hq => Hnamed q (or_intror Hq))
                        (fun q s' Hq => Hterm q s' (or_intror Hq))).
      clear IH.
      destruct (quit_if_word_cases p s0)
        as [(Hn & _)|[(pn & Hn & Hw & Hr & He)|(pn & r & Hn & Hw & Hr & He)]];
        cbn zeta in *.
      + exfalso. exact (Hnamed p (or_introl eq_refl) Hn).
      + destruct (for_each_cons_ok p (before ++ process :: after)
                    quit_if_word s0 Hr) as (Hres & _ & Hev).
        cbn zeta in Hres, Hev. rewrite Hres, Hev, He. simpl.
        unfold word_processes. simpl. rewrite Hn, Hw. apply IH'.
      + assert (r = Ok tt) as ->.
        { destruct (Hterm p s0 (or_introl eq_refl)) as (s'' & E).
          revert Hr. unfold ForceQuit.quit_if_word. rewrite Hn, Hw.
          cbv [bind call emit result]. rewrite E. congruence. }
        destruct (for_each_cons_ok p (before ++ process :: after)
                    quit_if_word s0 Hr) as (Hres & _ & Hev).
        cbn zeta in Hres, Hev. rewrite Hres, Hev, He. simpl.
        unfold word_processes. simpl. rewrite Hn, Hw.
        destruct (IH' (final (quit_if_word p s0))) as (Hr' & Ht').
        split; [exact Hr'|]. f_equal. exact Ht'. }
  specialize (Hloop s).
  destruct (for_each (before ++ process :: after) quit_if_word s) as [r s' evs].
  simpl in *. exact Hloop.
Qed.

End Facts.

End ForceQuitFacts.

(** ** The command line of [upload_pdf_to_oci_bucket.py] *)

Module UploadMainFacts.

Import UploadMain.

Section Facts.

Context {St : Type} (sys : System St).

Lemma in_lifted (ev : UploadOci.Event) (evs : list UploadOci.Event) :
  In (Upload ev) (map Upload evs) <-> In ev evs.
Proof.
  rewrite in_map_iff. split.
  - intros (ev' & E & H). injection E as ->. exact H.
  - intros H. exists ev. auto.
Qed.

(** X17. The namespace of every bucket call is the one that
    [get_namespace] returned, the bucket is the one named on the command
    line, and both clients are made from the configuration built from the
    arguments, with the private key path as [key_file].  If the namespace
    cannot be fetched the script raises before the bucket is looked at. *)
Theorem namespace_reaches_every_call args walk s :
  let o := main sys args walk s in
  (forall ns b r,
      In (Upload (UploadOci.GetBucket ns b r)) (events o) ->
      In (GetNamespace (Ok ns)) (events o) /\ b = bucket_name args)
  /\ (forall ns b key body r,
        In (Upload (UploadOci.PutObject ns b key body r)) (events o) ->
        In (GetNamespace (Ok ns)) (events o) /\ b = bucket_name args)
  /\ (forall c r,
        In (Upload (UploadOci.ClientInit c r)) (events o) ->
        c = config_of args /\ UploadOci.key_file c = private_key args)
  /\ (forall e,
        In (GetNamespace (Raise e)) (events o) ->
        result o = Raise e
        /\ events o
           = [Upload (UploadOci.ClientInit (config_of args) (Ok tt));
              GetNamespace (Raise e)]).
Proof.
  cbn zeta.
  cbv [UploadMain.main lift bind call result final events].
  destruct (UploadOci.client_init (storage sys) (config_of args) s)
    as [[[]|e1] s1]; simpl.
  - destruct (get_namespace sys s1) as [[ns0|e2] s2]; simpl.
    + pose proof (UploadOciFacts.upload_calls_use_arguments
                    (storage sys) (bucket_name args) ns0 (folder_path args)
                    (config_of args) walk s2) as Hcalls.
      rewrite Forall_forall in Hcalls.
      destruct (UploadOci.upload_to_oci _ _ _ _ _ _ s2) as [r s3 evs]; simpl in *.
      repeat split.
      * destruct H as [H|[H|H]]; try discriminate H.
        apply in_lifted, list_elem_of_In, Hcalls in H. simpl in H.
        destruct H as [-> _]. auto.
      * destruct H as [H|[H|H]]; try discriminate H.
        apply in_lifted, list_elem_of_In, Hcalls in H. simpl in H. tauto.
      * destruct H as [H|[H|H]]; try discriminate H.
        apply in_lifted, list_elem_of_In, Hcalls in H. simpl in H.
        destruct H as [-> _]. auto.
      * destruct H as [H|[H|H]]; try discriminate H.
        apply in_lifted, list_elem_of_In, Hcalls in H. simpl in H. tauto.
      * destruct H as [H|[H|H]]; try discriminate H.
        -- injection H as <- <-. reflexivity.
        -- apply in_lifted, list_elem_of_In, Hcalls in H. exact H.
      * destruct H as [H|[H|H]]; try discriminate H.
        -- injection H as <- <-. reflexivity.
        -- apply in_lifted, list_elem_of_In, Hcalls in H. simpl in H.
           subst c. reflexivity.
      * destruct H as [H|[H|H]]; try discriminate H.
        apply in_map_iff in H as (ev & E & _). discriminate E.
      * destruct H as [H|[H|H]]; try discriminate H.
        apply in_map_iff in H as (ev & E & _). discriminate E.
    + repeat split;
        try (destruct H as [H|[H|[]]]; try discriminate H).
      * injection H as <- <-. reflexivity.
      * injection H as <- <-. reflexivity.
      * injection H as <-. reflexivity.
      * injection H as <-. reflexivity.
  - repeat split; try (destruct H as [H|[]]; try discriminate H).
    + injection H as <- <-. reflexivity.
    + injection H as <- <-. reflexivity.
Qed.

End Facts.

End UploadMainFacts.

(** ** More runs on concrete trees *)

Module MoreScenarioFacts.

Import Scenario MoreScenarios.

(** A document and a spreadsheet of the same stem: the spreadsheet is
    archived without having been converted. *)
Example twin_is_archived_unconverted :
  let o := run healthy twins_walk twins in
  ConvertOffice.exports (events o)
  = [(ConvertOffice.Word, rel ["in"; "q"; "report.docx"],
      rel ["output"; "q"; "report.pdf"])]
  /\ SimFS.files (final o) !! rel ["output"; "q"; "report.pdf"]
     = Some "PDF of report"
  /\ SimFS.files (final o) !! rel ["archive"; "q"; "report.xlsx"] = Some "figures"
  /\ SimFS.files (final o) !! rel ["in"; "q"; "report.xlsx"] = None.
Proof. vm_compute. auto. Qed.

(** The spreadsheet of the twins, once the PDF of the document is
    there. *)
Lemma same_stem_files_collide_witness :
  ConvertOffice.output_pdf_path_of output_base_folder input_folder
    ["q"] "report.docx"
  = ConvertOffice.output_pdf_path_of output_base_folder input_folder
      ["q"] "report.xlsx"
  /\ ConvertOffice.exports
       (events (process healthy ["q"] "report.xlsx"
                  (final (process healthy ["q"] "report.docx" twins)))) = [].
Proof.
  assert (Hstem : fst (splitext_name "report.docx") = fst (splitext_name "report.xlsx"))
    by reflexivity.
  assert (Hmk : ConvertOffice.os_makedirs healthy
                  (dirname (ConvertOffice.output_pdf_path_of
                              output_base_folder input_folder ["q"] "report.xlsx"))
                  (final (process healthy ["q"] "report.docx" twins))
                = (Ok tt, after_makedirs (rel ["output"; "q"])
                            (final (process healthy ["q"] "report.docx" twins))))
    by (vm_compute; reflexivity).
  assert (Hex : ConvertOffice.os_path_exists healthy
                  (ConvertOffice.output_pdf_path_of
                     output_base_folder input_folder ["q"] "report.docx")
                  (after_makedirs (rel ["output"; "q"])
                     (final (process healthy ["q"] "report.docx" twins)))
                = true)
    by (vm_compute; reflexivity).
  pose proof (ConvertOfficeFacts.same_stem_files_collide
                healthy output_base_folder processed_base_folder input_folder
                ["q"] "report.docx" "report.xlsx" _ _ Hstem Hmk Hex) as H.
  destruct H as (Hpath & Hexports & _).
  split; [exact Hpath|exact Hexports].
Defined.

(** [output/a] is a regular file: the run stops at [a/report.docx]. *)
Lemma output_directory_failure_aborts_witness :
  run healthy [(["a"], ["report.docx"]); (["a"; "b"], ["data.xlsx"])]
      tree_with_blocked_output
  = MkOut (Raise (SimFS.oserror "FileExistsError")) tree_with_blocked_output
          [ConvertOffice.Makedirs
             (dirname (ConvertOffice.output_pdf_path_of
                         output_base_folder input_folder ["a"] "report.docx"))
             (Raise (SimFS.oserror "FileExistsError"))].
Proof.
  apply (ConvertOfficeFacts.output_directory_failure_aborts
           healthy output_base_folder processed_base_folder input_folder
           ["a"] "report.docx" [] [(["a"; "b"], ["data.xlsx"])]
           tree_with_blocked_output).
  vm_compute. reflexivity.
Defined.


(** A regular file where the archive directory [archive/a] should be: the
    report, whose PDF is there, is skipped, and the [os.makedirs] of
    [move_to_processed] ends the run. *)
Example archive_directory_failure_leaves_the_traversal :
  let o := run healthy [(["a"], ["report.docx"])] partial_run_with_blocked_archive in
  result o = Raise (SimFS.oserror "FileExistsError")
  /\ events o
     = [ConvertOffice.Makedirs (rel ["output"; "a"]) (Ok tt);
        ConvertOffice.Exists (rel ["output"; "a"; "report.pdf"]) true;
        ConvertOffice.Log ConvertOffice.info
          (ConvertOffice.SkippingConverted (rel ["a"; "report.docx"]));
        ConvertOffice.Makedirs (rel ["archive"; "a"])
          (Raise (SimFS.oserror "FileExistsError"))]
  /\ SimFS.files (final o) !! report = Some "report".
Proof. vm_compute. auto. Qed.

(** The copy of [readme.txt] fails on a directory; the file is moved to
    the archive all the same and no copy of it exists. *)
Lemma failed_copy_still_archives_witness :
  result (process healthy [] "readme.txt" tree_with_blocked_copy) = Ok tt
  /\ ConvertOffice.moves (events (process healthy [] "readme.txt" tree_with_blocked_copy))
     = [(readme, rel ["archive"; "readme.txt"], Ok tt)].
Proof.
  assert (Hext : ConvertOffice.classify (ConvertOffice.file_ext_of "readme.txt") = None)
    by reflexivity.
  assert (Hmk : ConvertOffice.os_makedirs healthy
                  (dirname (ConvertOffice.output_pdf_path_of
                              output_base_folder input_folder [] "readme.txt"))
                  tree_with_blocked_copy
                = (Ok tt, after_makedirs (rel ["output"]) tree_with_blocked_copy))
    by (vm_compute; reflexivity).
  assert (Hex : ConvertOffice.os_path_exists healthy
                  (ConvertOffice.output_pdf_path_of
                     output_base_folder input_folder [] "readme.txt")
                  (after_makedirs (rel ["output"]) tree_with_blocked_copy)
                = false)
    by (vm_compute; reflexivity).
  assert (Hmk2 : ConvertOffice.os_makedirs healthy
                   (dirname (join processed_base_folder
                               (ConvertOffice.output_pdf_path_of
                                  output_base_folder input_folder [] "readme.txt")))
                   (after_makedirs (rel ["output"]) tree_with_blocked_copy)
                 = (Ok tt, after_makedirs (rel ["archive"; "output"])
                             (after_makedirs (rel ["output"]) tree_with_blocked_copy)))
    by (vm_compute; reflexivity).
  assert (Hcopy : ConvertOffice.shutil_copy healthy
                    (ConvertOffice.file_path_of input_folder [] "readme.txt")
                    (join processed_base_folder
                       (ConvertOffice.output_pdf_path_of
                          output_base_folder input_folder [] "readme.txt"))
                    (after_makedirs (rel ["archive"; "output"])
                       (after_makedirs (rel ["output"]) tree_with_blocked_copy))
                  = (Raise (SimFS.oserror "IsADirectoryError"),
                     after_makedirs (rel ["archive"; "output"])
                       (after_makedirs (rel ["output"]) tree_with_blocked_copy)))
    by (vm_compute; reflexivity).
  pose proof (ConvertOfficeFacts.failed_copy_still_archives
                healthy output_base_folder processed_base_folder input_folder
                [] "readme.txt" tree_with_blocked_copy _ _ _ _
                Hext Hmk Hex Hmk2 Hcopy) as H.
  cbn zeta in H. destruct H as (Hev & Hres & _).
  unfold process. rewrite Hres, Hev. vm_compute. auto.
Defined.

(** No directory can be made: Word converts three times, and nothing is
    moved. *)
Lemma archive_directory_failure_reconverts_witness :
  ConvertOffice.exports
    (events (ConvertOffice.handler read_only_volume processed_base_folder
               ConvertOffice.Word report (rel ["output"; "a"; "report.pdf"])
               (rel ["a"; "report.docx"]) tt))
  = replicate 3 (ConvertOffice.Word, report, rel ["output"; "a"; "report.pdf"]).
Proof.
  refine (proj1 (proj2 (proj2
            (ConvertOfficeFacts.archive_directory_failure_reconverts
               read_only_volume processed_base_folder ConvertOffice.Word
               report (rel ["output"; "a"; "report.pdf"])
               (rel ["a"; "report.docx"]) tt _ _)))).
  - intros s'. exists s'. reflexivity.
  - intros s'. exists (SimFS.oserror "PermissionError"), s'. reflexivity.
Defined.

(** The Excel handler on the data sheet of the scenario: the move is its
    last call. *)
Lemma move_ends_the_handler_witness :
  skipn 4 (events (ConvertOffice.handler healthy processed_base_folder
                     ConvertOffice.Excel data
                     (rel ["output"; "a"; "b"; "data.pdf"])
                     (rel ["a"; "b"; "data.xlsx"])
                     (after_makedirs (rel ["output"; "a"; "b"]) tree)))
  = [ConvertOffice.Log ConvertOffice.info
       (ConvertOffice.MovedToProcessed (rel ["a"; "b"; "data.xlsx"]))].
Proof.
  refine (proj2 (proj2
            (ConvertOfficeFacts.move_ends_the_handler
               healthy processed_base_folder ConvertOffice.Excel data
               (rel ["output"; "a"; "b"; "data.pdf"])
               (rel ["a"; "b"; "data.xlsx"])
               (after_makedirs (rel ["output"; "a"; "b"]) tree)
               (firstn 3 (events (ConvertOffice.handler healthy processed_base_folder
                     ConvertOffice.Excel data
                     (rel ["output"; "a"; "b"; "data.pdf"])
                     (rel ["a"; "b"; "data.xlsx"])
                     (after_makedirs (rel ["output"; "a"; "b"]) tree))))
               data (rel ["archive"; "a"; "b"; "data.xlsx"]) (Ok tt)
               (skipn 4 (events (ConvertOffice.handler healthy processed_base_folder
                     ConvertOffice.Excel data
                     (rel ["output"; "a"; "b"; "data.pdf"])
                     (rel ["a"; "b"; "data.xlsx"])
                     (after_makedirs (rel ["output"; "a"; "b"]) tree))))
               _))).
  vm_compute. reflexivity.
Defined.

(** [Report.DOCX] goes where [report.docx] goes. *)
Lemma extension_case_is_ignored_witness :
  ConvertOffice.classify (ConvertOffice.file_ext_of "Report.DOCX")
  = ConvertOffice.classify (ConvertOffice.file_ext_of "report.docx").
Proof.
  refine (proj2 (proj2 (ConvertOfficeFacts.extension_case_is_ignored
                          "Report.DOCX" "report.docx" _ _ _)));
    reflexivity.
Defined.

(** [README] and [.README]; with [docx] for the name, [.docx]. *)
Lemma names_without_extension_are_unsupported_witness :
  ConvertOffice.classify (ConvertOffice.file_ext_of "docx") = None
  /\ ConvertOffice.classify (ConvertOffice.file_ext_of ".docx") = None.
Proof.
  refine (let H := ConvertOfficeFacts.names_without_extension_are_unsupported
                     output_base_folder input_folder "docx" _ in
          conj (proj1 H) (proj1 (proj2 H))).
  intros c Hc. simpl in Hc.
  destruct Hc as [<-|[<-|[<-|[<-|[]]]]]; reflexivity.
Defined.

(** Three directories without a file. *)
Lemma empty_directories_leave_no_trace_witness :
  run healthy walk_of_empty_directories tree = MkOut (Ok tt) tree [].
Proof.
  apply (ConvertOfficeFacts.empty_directories_leave_no_trace
           healthy output_base_folder processed_base_folder input_folder
           walk_of_empty_directories tree).
  intros entry Hentry. simpl in Hentry.
  destruct Hentry as [<-|[<-|[<-|[]]]]; reflexivity.
Defined.

(** [a.pdf] is gone from the folder: the upload stops at its [open], and
    [sub/b.pdf] is not sent. *)
Lemma open_failure_aborts_upload_witness :
  result (upload accepting cloud_without_a)
  = Raise (MkExn OtherException "FileNotFoundError")
  /\ skipn 4 (events (upload accepting cloud_without_a)) = [].
Proof.
  refine (UploadOciFacts.open_failure_aborts_upload
            accepting "bucket" "ns" folder_path config upload_walk cloud_without_a
            (firstn 3 (events (upload accepting cloud_without_a)))
            (rel ["pdfs"; "a.pdf"]) (MkExn OtherException "FileNotFoundError")
            (skipn 4 (events (upload accepting cloud_without_a))) _).
  vm_compute. reflexivity.
Defined.


(** Two Word processes around one without a name: the first is
    terminated, the second keeps running. *)
Lemma unnamed_process_stops_the_sweep_witness :
  result (ForceQuit.force_quit_word process_table processes_with_unnamed)
  = Raise ForceQuit.attribute_error
  /\ ForceQuit.terminated
       (events (ForceQuit.force_quit_word process_table processes_with_unnamed))
     = [ForceQuit.MkProcess 812 (Some "WINWORD.EXE")].
Proof.
  refine (ForceQuitFacts.unnamed_process_stops_the_sweep
            process_table
            [ForceQuit.MkProcess 812 (Some "WINWORD.EXE")]
            (ForceQuit.MkProcess 0 None)
            [ForceQuit.MkProcess 1203 (Some "winword.exe")]
            processes_with_unnamed _ _ _ _).
  - reflexivity.
  - reflexivity.
  - intros p [<-|[]]. discriminate.
  - intros p s' _. eexists. reflexivity.
Defined.

(** The sweep over the process list of the scenario ends both Word
    processes and nothing else. *)
Example sweep_ends_word_processes :
  let o := ForceQuit.force_quit_word process_table processes in
  result o = Ok tt
  /\ map ForceQuit.pid (ForceQuit.terminated (events o)) = [812; 1203]%nat
  /\ map ForceQuit.pid (final o) = [4; 977]%nat.
Proof. vm_compute. auto. Qed.

(** The command line on the simulated service: both files are sent under
    the namespace that the service gave. *)
Example command_line_upload :
  let o := UploadMain.main service args upload_walk cloud in
  result o = Ok tt
  /\ SimCloud.objects (final o) !! rel ["a.pdf"] = Some "A"
  /\ SimCloud.objects (final o) !! rel ["sub"; "b.pdf"] = Some "B".
Proof. vm_compute. auto. Qed.

End MoreScenarioFacts.
